(** * secure-redact: the PII redaction service

    A shallow embedding of [api/index.py] (the HTTP endpoint) and [main.py]
    (the batch actor).  Both are glue around two imported engines, an
    analyzer that detects PII spans and an anonymizer that rewrites the
    text; the engines are objects of an interface here, and the
    detection-and-rewrite core that the specification describes is given
    as one implementation of that interface. *)

From Stdlib Require Import List String Ascii ZArith QArith Qround Qabs.
From Stdlib Require Import Bool Lia Lqa Sorted.
Import ListNotations.
Local Open Scope Z_scope.

(** ** Python values used by the service *)

Module Py.

(** A [str] is a sequence of indivisible text units. *)
Definition str := list ascii.

Definition lit (s : string) : str := list_ascii_of_string s.

Definition len {A} (l : list A) : Z := Z.of_nat (List.length l).

(** Truth value of a string: [if s:] holds for the non-empty ones. *)
Definition truthy (s : str) : bool := negb (len s =? 0).

(** Bound of a slice: a negative index counts from the end, and both
    ends are clamped to the sequence. *)
Definition slice_index (n i : Z) : Z :=
  if i <? 0 then Z.max (i + n) 0 else Z.min i n.

(** [s[a:b]] *)
Definition slice (s : str) (a b : Z) : str :=
  let lo := slice_index (len s) a in
  let hi := slice_index (len s) b in
  firstn (Z.to_nat (hi - lo)) (skipn (Z.to_nat lo) s).

(** [s * n] *)
Definition times (s : str) (n : Z) : str :=
  List.concat (repeat s (Z.to_nat n)).

(** Nearest integer, a tie going to the even neighbour. *)
Definition round_half_even (x : Q) : Z :=
  let f := Qfloor x in
  match (x - inject_Z f ?= 1 # 2)%Q with
  | Lt => f
  | Gt => f + 1
  | Eq => if Z.even f then f else f + 1
  end.

(** [round(x, ndigits)] for [ndigits >= 0], on the exact value of [x]:
    the decimal with [ndigits] digits nearest to [x].  The value is kept
    as that decimal, which is also what the serialised float prints. *)
Definition round (x : Q) (ndigits : Z) : Q :=
  let p := Z.to_pos (10 ^ ndigits) in
  Qmake (round_half_even (x * inject_Z (Zpos p))) p.

(** The conditions an engine can fail with, as the specification names
    them. *)
Inductive engine_error : Type :=
| InvalidSpan
| MalformedSpan
| MissingDefaultOperator.

(** Exceptions a call can end with. *)
Inductive exn : Type :=
| HTTPException (status_code : Z) (detail : string)
| AttributeError (msg : string)
| EngineError (e : engine_error)
| OSError (msg : string).

Inductive result (A : Type) : Type :=
| Ok (a : A)
| Raise (e : exn).
Arguments Ok {A} a.
Arguments Raise {A} e.

Definition bind {A B} (c : result A) (k : A -> result B) : result B :=
  match c with
  | Ok a => k a
  | Raise e => Raise e
  end.

(** [None.attr] *)
Definition none_has_no_attribute {A} (attr : string) : result A :=
  Raise (AttributeError
           (String.append "'NoneType' object has no attribute '"
              (String.append attr "'"))).

End Py.
Import Py.

Notation "x <- c ;; k" := (bind c (fun x => k))
  (at level 61, c at next level, right associativity).

(** ** The imported engines, as the service sees them *)

Module Presidio.

(** One detection: [res.entity_type], [res.start], [res.end],
    [res.score]. *)
Record RecognizerResult : Type := mkResult {
  entity_type : string;
  start : Z;
  end_ : Z;
  score : Q
}.

(** [OperatorConfig(name, params)] for the two operators the service
    builds. *)
Inductive OperatorConfig : Type :=
| Replace (new_value : str)
| Mask (masking_char : str) (chars_to_mask : Z) (from_end : bool).

(** The [operators] dict: entity type, or ["DEFAULT"], to its config. *)
Definition Operators := list (string * OperatorConfig).

Record OperatorResult : Type := mkItem {
  span : RecognizerResult;
  operator : OperatorConfig;
  replacement : str
}.

Record EngineResult : Type := mkEngineResult {
  text : str;
  items : list OperatorResult
}.

Record AnalyzerEngine : Type := mkAnalyzer {
  analyze : str -> option (list string) -> string ->
            result (list RecognizerResult)
}.

Record AnonymizerEngine : Type := mkAnonymizer {
  anonymize : str -> list RecognizerResult -> Operators ->
              result EngineResult
}.

End Presidio.
Import Presidio.

(** ** api/index.py *)

Module RedactRequest.

Record t : Type := mk {
  text : str;
  entities : option (list string);
  mask_char : str;
  anonymize : bool
}.

(** A request body: [text] is required, the other fields may be left
    out. *)
Record body : Type := mkBody {
  b_text : str;
  b_entities : option (list string);
  b_mask_char : option str;
  b_anonymize : option bool
}.

(** The schema's defaults: [entities = None], [mask_char = "*"],
    [anonymize = True]. *)
Definition validate (b : body) : t :=
  {| text := b_text b;
     entities := b_entities b;
     mask_char := match b_mask_char b with Some c => c | None => lit "*" end;
     anonymize := match b_anonymize b with Some f => f | None => true end |}.

End RedactRequest.

Module EntityResult.

Record t : Type := mk {
  type : string;
  start : Z;
  end_ : Z;
  score : Q;
  text : str
}.

End EntityResult.

Inductive meta_value : Type :=
| MStr (s : string)
| MInt (n : Z).

Module RedactResponse.

Record t : Type := mk {
  original_length : Z;
  redacted_text : str;
  entities_detected : list EntityResult.t;
  metadata : list (string * meta_value)
}.

End RedactResponse.

Module Api.

(** The two module-level globals. *)
Record Globals : Type := mkGlobals {
  analyzer : option AnalyzerEngine;
  anonymizer : option AnonymizerEngine
}.

(** Module initialisation: the [try] block builds the analyzer, then the
    anonymizer; the [except] branch sets both globals to [None]. *)
Definition init (create_analyzer : result AnalyzerEngine)
                (create_anonymizer : result AnonymizerEngine) : Globals :=
  match create_analyzer with
  | Raise _ => {| analyzer := None; anonymizer := None |}
  | Ok a =>
      match create_anonymizer with
      | Raise _ => {| analyzer := None; anonymizer := None |}
      | Ok an => {| analyzer := Some a; anonymizer := Some an |}
      end
  end.

Record Health : Type := mkHealth {
  status : string;
  nlp_engine_loaded : bool
}.

Definition health_check (g : Globals) : Health :=
  {| status := "operational";
     nlp_engine_loaded :=
       match analyzer g with Some _ => true | None => false end |}.

Definition redact_pii (g : Globals) (request : RedactRequest.t)
  : result RedactResponse.t :=
  match analyzer g with
  | None =>
      Raise (HTTPException 500
               "Server Configuration Error: NLP Model Missing")
  | Some the_analyzer =>
      if negb (truthy (RedactRequest.text request)) then
        Ok {| RedactResponse.original_length := 0;
              RedactResponse.redacted_text := lit "";
              RedactResponse.entities_detected := [];
              RedactResponse.metadata := [("status", MStr "empty_input")]
           |}%string
      else
        analysis_results <-
          analyze the_analyzer (RedactRequest.text request)
                  (RedactRequest.entities request) "en" ;;
        final_text <-
          (if RedactRequest.anonymize request then
             let operators :=
               if truthy (RedactRequest.mask_char request)
                  && (len (RedactRequest.mask_char request) =? 1)
               then [("DEFAULT"%string,
                      Mask (RedactRequest.mask_char request) 100 true)]
               else [("DEFAULT"%string, Replace (lit "<PII>"))] in
             match anonymizer g with
             | None => none_has_no_attribute "anonymize"
             | Some the_anonymizer =>
                 anonymized_result <-
                   Presidio.anonymize the_anonymizer
                     (RedactRequest.text request) analysis_results
                     operators ;;
                 Ok (Presidio.text anonymized_result)
             end
           else Ok (RedactRequest.text request)) ;;
        let structured_entities :=
          map (fun res =>
                 {| EntityResult.type := entity_type res;
                    EntityResult.start := start res;
                    EntityResult.end_ := end_ res;
                    EntityResult.score := round (score res) 4;
                    EntityResult.text :=
                      slice (RedactRequest.text request)
                            (start res) (end_ res) |})
              analysis_results in
        Ok {| RedactResponse.original_length :=
                len (RedactRequest.text request);
              RedactResponse.redacted_text := final_text;
              RedactResponse.entities_detected := structured_entities;
              RedactResponse.metadata :=
                [("engine", MStr "presidio-lite");
                 ("model", MStr "en_core_web_sm");
                 ("entity_count", MInt (len structured_entities))]
           |}%string
  end.

End Api.
Import Api.

(** ** main.py *)

Module Actor.

(** The actor's input dict with its three keys, each holding a value of
    the type [main] expects (a string, a boolean); [None] is a key that
    is not there.  A [null] or a value of another type under a key is not
    an input of this model. *)
Record Input : Type := mkInput {
  text : option str;
  anonymize : option bool;
  mask_char : option str
}.

Record OutputData : Type := mkOutput {
  original_length : Z;
  redacted_text : str;
  entities_detected : list EntityResult.t;
  is_success : bool
}.

(** How a run of [main] ends when no exception escapes: the two early
    returns, or the output record that is pushed (or printed). *)
Inductive outcome : Type :=
| NoTextProvided
| EmptyTextProvided
| Finished (output_data : OutputData).

Definition main (g : Globals) (actor_input : option Input)
  : result outcome :=
  match actor_input with
  | None => Ok NoTextProvided
  | Some input =>
      match text input with
      | None => Ok NoTextProvided
      | Some text_to_process =>
          let should_anonymize :=
            match anonymize input with Some f => f | None => true end in
          let mask_char :=
            match mask_char input with Some c => c | None => lit "*" end in
          if negb (truthy text_to_process) then Ok EmptyTextProvided
          else
            analysis_results <-
              match analyzer g with
              | None => none_has_no_attribute "analyze"
              | Some the_analyzer =>
                  analyze the_analyzer text_to_process None "en"
              end ;;
            final_text <-
              (if should_anonymize then
                 let operators :=
                   if truthy mask_char && (len mask_char =? 1)
                   then [("DEFAULT"%string, Mask mask_char 100 true)]
                   else [("DEFAULT"%string, Replace (lit "<PII>"))] in
                 match anonymizer g with
                 | None => none_has_no_attribute "anonymize"
                 | Some the_anonymizer =>
                     anonymized_result <-
                       Presidio.anonymize the_anonymizer text_to_process
                         analysis_results operators ;;
                     Ok (Presidio.text anonymized_result)
                 end
               else Ok text_to_process) ;;
            let structured_entities :=
              map (fun res =>
                     {| EntityResult.type := entity_type res;
                        EntityResult.start := start res;
                        EntityResult.end_ := end_ res;
                        EntityResult.score := round (score res) 4;
                        EntityResult.text :=
                          slice text_to_process (start res) (end_ res) |})
                  analysis_results in
            Ok (Finished
                  {| original_length := len text_to_process;
                     redacted_text := final_text;
                     entities_detected := structured_entities;
                     is_success := true |})
      end
  end.

End Actor.

(** ** The detection-and-rewrite core

    The engines are imported: their code is not part of the service.  This
    module gives the engine the specification describes (recognizers, span
    merger, operator registry, rewriter), as an implementation of the two
    interfaces above. *)

Module Core.

Definition Span := RecognizerResult.

(** Modelled from the spec: the Recognizer contract
    [run(text, allowed_entity_types) -> list<Span>], whose implementations
    (patterns, NER model) are imported code. *)
Definition Recognizer := str -> option (list string) -> list Span.

(** Modelled from the spec: the Span invariant
    [0 <= start < end <= len(text)]; the merger is imported code. *)
Definition valid_span (text : str) (s : Span) : bool :=
  (0 <=? start s) && (start s <? end_ s) && (end_ s <=? len text).

(** Modelled from the spec: the entity filter of the merger (imported
    code): a span whose type is not in the requested set is dropped
    before merging. *)
Definition allowed_type (allowed : option (list string)) (s : Span) : bool :=
  match allowed with
  | None => true
  | Some types => existsb (String.eqb (entity_type s)) types
  end.

(** [x < y] on scores. *)
Definition Qltb (x y : Q) : bool := negb (Qle_bool y x).

(** Modelled from the spec: exact duplicates in the merger (imported
    code) are spans with the same start, end and entity type. *)
Definition same_key (a b : Span) : bool :=
  (start a =? start b) && (end_ a =? end_ b)
  && String.eqb (entity_type a) (entity_type b).

(** Modelled from the spec: step 1 of the merger (imported code), one
    span added to the duplicate-free list, the higher score kept. *)
Fixpoint dedupe_add (x : Span) (acc : list Span) : list Span :=
  match acc with
  | [] => [x]
  | y :: acc' =>
      if same_key x y
      then (if Qltb (score y) (score x) then x else y) :: acc'
      else y :: dedupe_add x acc'
  end.

(** Modelled from the spec: step 1 of the merger (imported code), drop
    exact duplicates keeping the one with the highest score. *)
Definition dedupe (spans : list Span) : list Span :=
  fold_left (fun acc x => dedupe_add x acc) spans [].

(** Modelled from the spec: the sort key of step 2 of the merger
    (imported code): start ascending, then score descending, then
    length descending. *)
Definition span_leb (a b : Span) : bool :=
  if start a <? start b then true
  else if start b <? start a then false
  else if Qltb (score b) (score a) then true
  else if Qltb (score a) (score b) then false
  else end_ b - start b <=? end_ a - start a.

(** Modelled from the spec: step 2 of the merger (imported code), as a
    stable insertion sort. *)
Fixpoint insert (x : Span) (sorted : list Span) : list Span :=
  match sorted with
  | [] => [x]
  | y :: rest => if span_leb x y then x :: sorted else y :: insert x rest
  end.

(** Modelled from the spec: step 2 of the merger (imported code). *)
Definition sort (spans : list Span) : list Span := fold_right insert [] spans.

(** Modelled from the spec: the conflict rule of step 3 of the merger
    (imported code): of two overlapping spans the higher score wins, on
    a tie the longer one, on a further tie the earlier one. *)
Definition beats (candidate current : Span) : bool :=
  Qltb (score current) (score candidate)
  || (Qeq_bool (score candidate) (score current)
      && (end_ current - start current <? end_ candidate - start candidate)).

(** Modelled from the spec: step 3 of the merger (imported code), the
    left-to-right sweep with a current accepted span. *)
Fixpoint sweep (current : Span) (candidates : list Span) : list Span :=
  match candidates with
  | [] => [current]
  | c :: rest =>
      if end_ current <=? start c then current :: sweep c rest
      else if beats c current then sweep c rest
      else sweep current rest
  end.

(** Modelled from the spec: [merge(all_spans) -> ResolvedSpanList] of the
    Span Merger, which is imported code. *)
Definition merge (all_spans : list Span) : list Span :=
  match sort (dedupe all_spans) with
  | [] => []
  | first :: rest => sweep first rest
  end.

(** Modelled from the spec: [analyze(text, allowed_entity_types)] of the
    Pipeline Facade (imported code): every recognizer runs over the same
    text, spans of types not asked for are dropped, an invalid span is
    fatal to the call, the rest is merged. *)
Definition analyze (recognizers : list Recognizer) (text : str)
           (allowed : option (list string)) (language : string)
  : result (list Span) :=
  let candidates :=
    filter (allowed_type allowed)
           (flat_map (fun run => run text allowed) recognizers) in
  if forallb (valid_span text) candidates
  then Ok (merge candidates)
  else Raise (EngineError InvalidSpan).

(** Modelled from the spec: [resolve(entity_type)] of the Operator
    Registry (imported code): the exact entity type, else the [DEFAULT]
    binding. *)
Fixpoint lookup (key : string) (operators : Operators)
  : option OperatorConfig :=
  match operators with
  | [] => None
  | (k, cfg) :: rest => if String.eqb k key then Some cfg else lookup key rest
  end.

(** Modelled from the spec: [resolve(entity_type)] of the Operator
    Registry (imported code). *)
Definition resolve (operators : Operators) (entity_type : string)
  : result OperatorConfig :=
  match lookup entity_type operators with
  | Some cfg => Ok cfg
  | None =>
      match lookup "DEFAULT" operators with
      | Some cfg => Ok cfg
      | None => Raise (EngineError MissingDefaultOperator)
      end
  end.

(** Modelled from the spec: the operator semantics of the registry
    (imported code).  [replace] puts a fixed literal; [mask] puts [N]
    mask characters, [N] the smaller of the span's length and the given
    count, over the trailing characters when [from_end] is set and over
    the leading ones otherwise. *)
Definition operate (cfg : OperatorConfig) (substring : str) : str :=
  match cfg with
  | Replace new_value => new_value
  | Mask masking_char chars_to_mask from_end =>
      let n := Z.min (len substring) (Z.max chars_to_mask 0) in
      if from_end
      then slice substring 0 (len substring - n) ++ times masking_char n
      else times masking_char n ++ slice substring n (len substring)
  end.

(** Modelled from the spec: the Rewriter's single pass (imported code):
    the untouched text since the previous span's end, the operator's
    replacement for the span, and after the last span the remainder. *)
Fixpoint rewrite (text : str) (pos : Z) (spans : list Span)
         (operators : Operators) : result (str * list OperatorResult) :=
  match spans with
  | [] => Ok (slice text pos (len text), [])
  | s :: rest =>
      if len text <? end_ s then Raise (EngineError MalformedSpan)
      else if (start s <? 0) || (end_ s <=? start s)
      then Raise (EngineError InvalidSpan)
      else
        cfg <- resolve operators (entity_type s) ;;
        let replacement := operate cfg (slice text (start s) (end_ s)) in
        tail <- rewrite text (end_ s) rest operators ;;
        Ok (slice text pos (start s) ++ replacement ++ fst tail,
            {| span := s; operator := cfg; replacement := replacement |}
              :: snd tail)
  end.

(** Modelled from the spec: [apply(text, resolved_spans, registry)] of
    the Rewriter, which is imported code. *)
Definition apply (text : str) (resolved_spans : list Span)
           (operators : Operators) : result EngineResult :=
  out <- rewrite text 0 resolved_spans operators ;;
  Ok {| Presidio.text := fst out; items := snd out |}.

Definition analyzer_engine (recognizers : list Recognizer)
  : AnalyzerEngine :=
  {| Presidio.analyze := analyze recognizers |}.

Definition anonymizer_engine : AnonymizerEngine :=
  {| Presidio.anonymize := apply |}.

(** The globals after a successful start with the core engines. *)
Definition globals (recognizers : list Recognizer) : Globals :=
  init (Ok (analyzer_engine recognizers)) (Ok anonymizer_engine).

End Core.

(** ** Concrete inputs used by the examples *)

Module Sample.

(** The text of [test_local.py]. *)
Definition text : str :=
  lit "Contact me at 08123456789 or john.doe@example.com.".

Definition phone : Core.Span := mkResult "PHONE_NUMBER" 14 25 (3 # 4).
Definition email : Core.Span := mkResult "EMAIL_ADDRESS" 29 49 1.
Definition url : Core.Span := mkResult "URL" 38 49 (1 # 2).

(** A recognizer that reports the given spans on the text [on] and
    nothing elsewhere. *)
Definition pattern (on : str) (spans : list Core.Span) : Core.Recognizer :=
  fun t _ => if list_eq_dec ascii_dec t on then spans else [].

Definition recognizers : list Core.Recognizer :=
  [pattern text [email; url]; pattern text [phone]].

Definition body (mask_char : option str) (anonymize : option bool)
  : RedactRequest.body :=
  {| RedactRequest.b_text := text;
     RedactRequest.b_entities := None;
     RedactRequest.b_mask_char := mask_char;
     RedactRequest.b_anonymize := anonymize |}.

(** The request of [test_local.py]. *)
Definition request : RedactRequest.t :=
  RedactRequest.validate (body (Some (lit "*")) (Some true)).

(** The same text with nothing else in the body. *)
Definition bare_request : RedactRequest.t :=
  RedactRequest.validate (body None None).

(** A mask string of two characters. *)
Definition wide_mask_request : RedactRequest.t :=
  RedactRequest.validate (body (Some (lit "##")) None).

Definition detect_only_request : RedactRequest.t :=
  RedactRequest.validate (body None (Some false)).

Definition empty_request : RedactRequest.t :=
  RedactRequest.validate
    {| RedactRequest.b_text := lit "";
       RedactRequest.b_entities := None;
       RedactRequest.b_mask_char := None;
       RedactRequest.b_anonymize := None |}.

Definition entities : list EntityResult.t :=
  [ {| EntityResult.type := "PHONE_NUMBER";
       EntityResult.start := 14;
       EntityResult.end_ := 25;
       EntityResult.score := 7500 # 10000;
       EntityResult.text := lit "08123456789" |};
    {| EntityResult.type := "EMAIL_ADDRESS";
       EntityResult.start := 29;
       EntityResult.end_ := 49;
       EntityResult.score := 10000 # 10000;
       EntityResult.text := lit "john.doe@example.com" |} ].

Definition respond (redacted_text : str) : RedactResponse.t :=
  {| RedactResponse.original_length := 50;
     RedactResponse.redacted_text := redacted_text;
     RedactResponse.entities_detected := entities;
     RedactResponse.metadata :=
       [("engine", MStr "presidio-lite");
        ("model", MStr "en_core_web_sm");
        ("entity_count", MInt 2)] |}%string.

Definition masked : RedactResponse.t :=
  respond (lit "Contact me at *********** or ********************.").

Definition replaced : RedactResponse.t :=
  respond (lit "Contact me at <PII> or <PII>.").

Definition untouched : RedactResponse.t := respond text.

(** A text with a link of 112 characters in it. *)
Definition long_link : str :=
  lit "https://example.com/reset?token=" ++ times (lit "0123456789") 8.

Definition long_text : str := lit "See " ++ long_link.

Definition link : Core.Span := mkResult "URL" 4 116 (1 # 2).

Definition long_request : RedactRequest.t :=
  {| RedactRequest.text := long_text;
     RedactRequest.entities := None;
     RedactRequest.mask_char := lit "*";
     RedactRequest.anonymize := true |}.

(** The fallback input of the actor's local run. *)
Definition local_input : Actor.Input :=
  {| Actor.text := Some (lit "Hello world (local test)");
     Actor.anonymize := Some true;
     Actor.mask_char := None |}.

Definition actor_input (text : str) : Actor.Input :=
  {| Actor.text := Some text;
     Actor.anonymize := None;
     Actor.mask_char := None |}.

Definition actor_output : Actor.OutputData :=
  {| Actor.original_length := 50;
     Actor.redacted_text :=
       lit "Contact me at *********** or ********************.";
     Actor.entities_detected := entities;
     Actor.is_success := true |}.

(** The model that a failed start could not find. *)
Definition model_missing : exn :=
  OSError "[E050] Can't find model 'en_core_web_sm'.".

End Sample.

(** ** Predicates the statements are written with *)

Module Props.

(** [y] is [x] rounded to four decimal digits: a whole number of
    ten-thousandths, at most half a ten-thousandth away from [x]. *)
Definition rounded4 (x y : Q) : Prop :=
  exists n : Z, y = n # 10000 /\ (Qabs (y - x) <= 1 # 20000)%Q.

(** The entity [e] of a response reports the detection [res] made on
    [text]. *)
Definition reports (text : str) (res : RecognizerResult)
           (e : EntityResult.t) : Prop :=
  EntityResult.type e = entity_type res
  /\ EntityResult.start e = start res
  /\ EntityResult.end_ e = end_ res
  /\ rounded4 (score res) (EntityResult.score e)
  /\ EntityResult.text e = slice text (start res) (end_ res).

(** The reported text of [e] is [text[e.start:e.end]]. *)
Definition quotes (text : str) (e : EntityResult.t) : Prop :=
  EntityResult.text e
  = slice text (EntityResult.start e) (EntityResult.end_ e).

(** A resolved span list: starts ascending, and each span ends before
    the next one starts. *)
Definition by_start (a b : RecognizerResult) : Prop := start a <= start b.

Definition apart (a b : RecognizerResult) : Prop := end_ a <= start b.

Definition resolved_spans (spans : list RecognizerResult) : Prop :=
  StronglySorted by_start spans /\ Sorted apart spans.

(** A detection that lies in the text: [0 <= start < end <= len(text)]. *)
Definition within (text : str) (res : RecognizerResult) : Prop :=
  0 <= start res < end_ res /\ end_ res <= len text.

Definition resolved (entities : list EntityResult.t) : Prop :=
  StronglySorted
    (fun a b => EntityResult.start a <= EntityResult.start b) entities
  /\ Sorted (fun a b => EntityResult.end_ a <= EntityResult.start b)
            entities.

(** The anonymizer that works under [operators] whatever it is handed. *)
Definition pinned (operators : Operators) (engine : AnonymizerEngine)
  : AnonymizerEngine :=
  {| Presidio.anonymize :=
       fun text results _ => Presidio.anonymize engine text results operators
  |}.

Definition replace_pii : Operators :=
  [("DEFAULT"%string, Replace (lit "<PII>"))].

Definition mask_with (c : str) : Operators :=
  [("DEFAULT"%string, Mask c 100 true)].

(** A run of the service on [text], through the endpoint or through
    the actor, that handed back the length [n], the text [redacted] and
    the entity list [entities]. *)
Inductive answered (g : Globals) (text : str)
  : Z -> str -> list EntityResult.t -> Prop :=
| by_endpoint (request : RedactRequest.t) (response : RedactResponse.t) :
    RedactRequest.text request = text ->
    redact_pii g request = Ok response ->
    answered g text (RedactResponse.original_length response)
             (RedactResponse.redacted_text response)
             (RedactResponse.entities_detected response)
| by_actor (input : Actor.Input) (out : Actor.OutputData) :
    Actor.text input = Some text ->
    Actor.main g (Some input) = Ok (Actor.Finished out) ->
    answered g text (Actor.original_length out)
             (Actor.redacted_text out)
             (Actor.entities_detected out).

(** Position [i] lies in one of the spans. *)
Definition covered (spans : list RecognizerResult) (i : Z) : bool :=
  existsb (fun s => (start s <=? i) && (i <? end_ s)) spans.

(** [t], whose first character is at position [i], with every covered
    position overwritten by [c]. *)
Fixpoint paint (spans : list RecognizerResult) (c : ascii) (i : Z)
         (t : str) : str :=
  match t with
  | [] => []
  | ch :: t' =>
      (if covered spans i then c else ch) :: paint spans c (i + 1) t'
  end.

(** The spans lie in [[pos, n]], in ascending order, without overlap and
    none of them empty. *)
Fixpoint tiles (pos : Z) (spans : list RecognizerResult) (n : Z) : Prop :=
  match spans with
  | [] => pos <= n
  | s :: rest => pos <= start s /\ start s < end_ s /\ tiles (end_ s) rest n
  end.

End Props.
Import Props.

(** ** main.py: the whole actor, with what it reads and writes *)

Module Shell.

(** The platform client as [main] uses it: the value of
    [client.key_value_store().get_record('INPUT')['value']], and the two
    calls that store the output. *)
Record ApifyClient : Type := mkClient {
  input_value : result (option Actor.Input);
  push_items : list Actor.OutputData -> result unit;
  set_record : string -> Actor.OutputData -> result unit
}.

(** The module-level [try: client = ApifyClient() except: client = None]. *)
Definition create_client (created : result ApifyClient)
  : option ApifyClient :=
  match created with
  | Ok c => Some c
  | Raise _ => None
  end.

(** What [print] is given: a literal line, the f-string with the length,
    or the JSON dump of the output record. *)
Inductive printed : Type :=
| Line (s : string)
| ProcessingTextLength (n : Z)
| JsonDumps (output_data : Actor.OutputData).

(** What a run does to the outside, in order. *)
Inductive event : Type :=
| Print (p : printed)
| PushItems (items : list Actor.OutputData)
| SetRecord (key : string) (value : Actor.OutputData).

(** A computation that leaves a trace of events and returns or raises;
    nothing runs after an exception. *)
Definition io (A : Type) : Type := (list event * result A)%type.

Definition ret {A} (a : A) : io A := ([], Ok a).

Definition lift {A} (r : result A) : io A := ([], r).

Definition tell (e : event) : io unit := ([e], Ok tt).

(** A call on the outside: it is made, then it returns or raises. *)
Definition call (e : event) (r : result unit) : io unit := ([e], r).

Definition io_bind {A B} (c : io A) (k : A -> io B) : io B :=
  match snd c with
  | Ok a => (fst c ++ fst (k a), snd (k a))
  | Raise e => (fst c, Raise e)
  end.

Notation "x <-- c ;;; k" := (io_bind c (fun x => k))
  (at level 61, c at next level, right associativity).
Notation "c ;;; k" := (io_bind c (fun _ => k))
  (at level 61, right associativity).

(** The fallback input of a local run. *)
Definition default_input : Actor.Input :=
  {| Actor.text := Some (lit "Hello world (local test)");
     Actor.anonymize := Some true;
     Actor.mask_char := None |}.

(** Step 1 of [main]: the input comes from the platform when there is a
    client; otherwise it is the fallback, or what [local_input.json]
    holds when that file exists ([local_input_json] is then the outcome of
    loading it). *)
Definition read_input (client : option ApifyClient)
           (local_input_json : option (result (option Actor.Input)))
  : result (option Actor.Input) :=
  match client with
  | Some c => input_value c
  | None =>
      match local_input_json with
      | Some loaded => loaded
      | None => Ok (Some default_input)
      end
  end.

Definition main (client : option ApifyClient)
           (local_input_json : option (result (option Actor.Input)))
           (g : Globals) : io Actor.outcome :=
  tell (Print (Line "Starting SecureRedact Actor...")) ;;;
  actor_input <-- lift (read_input client local_input_json) ;;;
  match actor_input with
  | None =>
      tell (Print (Line "ERROR: No text provided in input.")) ;;;
      ret Actor.NoTextProvided
  | Some input =>
      match Actor.text input with
      | None =>
          tell (Print (Line "ERROR: No text provided in input.")) ;;;
          ret Actor.NoTextProvided
      | Some text_to_process =>
          let should_anonymize :=
            match Actor.anonymize input with
            | Some f => f
            | None => true
            end in
          let mask_char :=
            match Actor.mask_char input with
            | Some c => c
            | None => lit "*"
            end in
          if negb (truthy text_to_process) then
            tell (Print (Line "Empty text provided.")) ;;;
            ret Actor.EmptyTextProvided
          else
            tell (Print (ProcessingTextLength (len text_to_process))) ;;;
            analysis_results <--
              lift (match analyzer g with
                    | None => none_has_no_attribute "analyze"
                    | Some the_analyzer =>
                        analyze the_analyzer text_to_process None "en"
                    end) ;;;
            final_text <--
              lift (if should_anonymize then
                      let operators :=
                        if truthy mask_char && (len mask_char =? 1)
                        then [("DEFAULT"%string, Mask mask_char 100 true)]
                        else [("DEFAULT"%string, Replace (lit "<PII>"))] in
                      match anonymizer g with
                      | None => none_has_no_attribute "anonymize"
                      | Some the_anonymizer =>
                          anonymized_result <-
                            Presidio.anonymize the_anonymizer
                              text_to_process analysis_results operators ;;
                          Ok (Presidio.text anonymized_result)
                      end
                    else Ok text_to_process) ;;;
            let structured_entities :=
              map (fun res =>
                     {| EntityResult.type := entity_type res;
                        EntityResult.start := start res;
                        EntityResult.end_ := end_ res;
                        EntityResult.score := round (score res) 4;
                        EntityResult.text :=
                          slice text_to_process (start res) (end_ res) |})
                  analysis_results in
            let output_data :=
              {| Actor.original_length := len text_to_process;
                 Actor.redacted_text := final_text;
                 Actor.entities_detected := structured_entities;
                 Actor.is_success := true |} in
            match client with
            | Some c =>
                call (PushItems [output_data]) (push_items c [output_data]) ;;;
                call (SetRecord "OUTPUT" output_data)
                     (set_record c "OUTPUT" output_data) ;;;
                tell (Print (Line "Results saved to Apify Dataset."))
            | None =>
                tell (Print (Line "Local Result:")) ;;;
                tell (Print (JsonDumps output_data))
            end ;;;
            tell (Print (Line "Actor finished successfully.")) ;;;
            ret (Actor.Finished output_data)
      end
  end.

(** The calls of a trace that write to the platform. *)
Definition store_calls (trace : list event) : list event :=
  filter (fun e => match e with Print _ => false | _ => true end) trace.

(** Step 3 of [main] for an output record, as a computation of its own. *)
Definition deliver (client : option ApifyClient)
           (output_data : Actor.OutputData) : io unit :=
  match client with
  | Some c =>
      call (PushItems [output_data]) (push_items c [output_data]) ;;;
      call (SetRecord "OUTPUT" output_data)
           (set_record c "OUTPUT" output_data) ;;;
      tell (Print (Line "Results saved to Apify Dataset."))
  | None =>
      tell (Print (Line "Local Result:")) ;;;
      tell (Print (JsonDumps output_data))
  end.

(** The length [main] prints before it runs the engines. *)
Definition processed_length (actor_input : option Actor.Input) : Z :=
  match actor_input with
  | Some input =>
      match Actor.text input with
      | Some text_to_process => len text_to_process
      | None => 0
      end
  | None => 0
  end.

(** A record as [main] writes them: marked as a success and made from a
    text that is not empty. *)
Definition well_formed (output_data : Actor.OutputData) : Prop :=
  Actor.is_success output_data = true
  /\ 0 < Actor.original_length output_data.

(** A client that holds [input] and accepts what it is given. *)
Definition accepting (input : Actor.Input) : ApifyClient :=
  {| input_value := Ok (Some input);
     push_items := fun _ => Ok tt;
     set_record := fun _ _ => Ok tt |}.

(** A client that holds [input] and whose dataset refuses the items. *)
Definition refusing (input : Actor.Input) : ApifyClient :=
  {| input_value := Ok (Some input);
     push_items := fun _ => Raise (OSError "dataset unavailable");
     set_record := fun _ _ => Ok tt |}.

End Shell.

(** ** A detection that runs past the end of the text *)

Module Overrun.

(** An analyzer that reports one span, from 4 to 60, whatever the text. *)
Definition engine : AnalyzerEngine :=
  mkAnalyzer (fun _ _ _ => Ok [mkResult "URL" 4 60 (1 # 2)]).

Definition globals : Globals := mkGlobals (Some engine) None.

(** What comes back for the sample text, which has 50 characters. *)
Definition entity : EntityResult.t :=
  {| EntityResult.type := "URL";
     EntityResult.start := 4;
     EntityResult.end_ := 60;
     EntityResult.score := 5000 # 10000;
     EntityResult.text :=
       lit "act me at 08123456789 or john.doe@example.com." |}.

Definition response : RedactResponse.t :=
  {| RedactResponse.original_length := 50;
     RedactResponse.redacted_text := Sample.text;
     RedactResponse.entities_detected := [entity];
     RedactResponse.metadata :=
       [("engine", MStr "presidio-lite");
        ("model", MStr "en_core_web_sm");
        ("entity_count", MInt 1)] |}%string.

End Overrun.

(** ** Python values *)

Section PythonValues.

Lemma len_nonneg {A} (l : list A) : 0 <= len l.
Proof. unfold len. lia. Qed.

Lemma truthy_false_nil (s : str) : truthy s = false -> s = [].
Proof.
  unfold truthy, len. destruct s as [|c s]; [reflexivity|].
  simpl List.length. intros H. apply negb_false_iff in H.
  apply Z.eqb_eq in H. lia.
Qed.

Lemma truthy_true_cons (s : str) : truthy s = true -> s <> [].
Proof. intros H ->. discriminate H. Qed.

Lemma round_half_even_near (y : Q) :
  (Qabs (inject_Z (round_half_even y) - y) <= 1 # 2)%Q.
Proof.
  unfold round_half_even.
  pose proof (Qfloor_le y) as Hlo.
  pose proof (Qlt_floor y) as Hhi.
  rewrite inject_Z_plus in Hhi. change (inject_Z 1) with 1%Q in Hhi.
  apply Qabs_Qle_condition.
  destruct (Qcompare_spec (y - inject_Z (Qfloor y)) (1 # 2)) as [He|Hl|Hg].
  - destruct (Z.even (Qfloor y));
      [|rewrite inject_Z_plus; change (inject_Z 1) with 1%Q]; split; lra.
  - split; lra.
  - rewrite inject_Z_plus. change (inject_Z 1) with 1%Q. split; lra.
Qed.

Lemma round_4_rounded (x : Q) : rounded4 x (round x 4).
Proof.
  unfold rounded4, round.
  change (Z.to_pos (10 ^ 4)) with 10000%positive.
  set (n := round_half_even (x * inject_Z 10000)).
  exists n. split; [reflexivity|].
  pose proof (round_half_even_near (x * inject_Z 10000)) as H.
  fold n in H.
  apply Qabs_Qle_condition in H. apply Qabs_Qle_condition.
  assert (E : (n # 10000 == inject_Z n * (1 # 10000))%Q).
  { unfold Qeq, inject_Z, Qmult. simpl. lia. }
  rewrite E.
  assert (T : (inject_Z 10000 == 10000)%Q) by reflexivity.
  rewrite T in H.
  split; lra.
Qed.

End PythonValues.

(** ** What a call that returns has done *)

Section Calls.

Lemma reports_map (text : str) (results : list RecognizerResult) :
  Forall2 (reports text) results
    (map (fun res =>
            {| EntityResult.type := entity_type res;
               EntityResult.start := start res;
               EntityResult.end_ := end_ res;
               EntityResult.score := round (score res) 4;
               EntityResult.text := slice text (start res) (end_ res) |})
         results).
Proof.
  induction results as [|res results IH]; simpl; constructor; [|exact IH].
  unfold reports; simpl. repeat split. apply round_4_rounded.
Qed.

(** The endpoint, when it answers: the analyzer was loaded, the length
    reported is that of the request's text, the entities are the
    analyzer's detections in the analyzer's order, and in detection-only
    mode the text comes back as it was sent. *)
Lemma redact_pii_returns (g : Globals) (request : RedactRequest.t)
      (response : RedactResponse.t) :
  redact_pii g request = Ok response ->
  exists the_analyzer results,
    analyzer g = Some the_analyzer
    /\ RedactResponse.original_length response
       = len (RedactRequest.text request)
    /\ (RedactRequest.anonymize request = false ->
        RedactResponse.redacted_text response = RedactRequest.text request)
    /\ (RedactRequest.text request <> [] ->
        analyze the_analyzer (RedactRequest.text request)
                (RedactRequest.entities request) "en" = Ok results)
    /\ (RedactRequest.text request = [] ->
        results = [] /\ RedactResponse.redacted_text response = [])
    /\ Forall2 (reports (RedactRequest.text request)) results
               (RedactResponse.entities_detected response).
Proof.
  unfold redact_pii. intros H.
  destruct (analyzer g) as [a|]; [|discriminate H].
  destruct (truthy (RedactRequest.text request)) eqn:T; simpl in H.
  - apply truthy_true_cons in T.
    destruct (analyze a _ _ _) as [results|] eqn:A; simpl in H;
      [|discriminate H].
    exists a, results.
    destruct (RedactRequest.anonymize request) eqn:F.
    + destruct (anonymizer g) as [an|]; [|discriminate H].
      destruct (Presidio.anonymize an _ _ _) as [r|]; simpl in H;
        [|discriminate H].
      injection H as <-. simpl.
      repeat split; try easy; try apply reports_map.
    + simpl in H. injection H as <-. simpl.
      repeat split; try easy; try apply reports_map.
  - apply truthy_false_nil in T.
    injection H as <-. exists a, []. rewrite T. simpl.
    repeat split; try easy; try constructor.
Qed.

(** The actor, when it produces its output record. *)
Lemma main_finishes (g : Globals) (input : Actor.Input)
      (out : Actor.OutputData) :
  Actor.main g (Some input) = Ok (Actor.Finished out) ->
  exists text_to_process the_analyzer results,
    Actor.text input = Some text_to_process
    /\ text_to_process <> []
    /\ analyzer g = Some the_analyzer
    /\ analyze the_analyzer text_to_process None "en" = Ok results
    /\ Actor.original_length out = len text_to_process
    /\ (Actor.anonymize input = Some false ->
        Actor.redacted_text out = text_to_process)
    /\ Forall2 (reports text_to_process) results
               (Actor.entities_detected out).
Proof.
  unfold Actor.main. intros H.
  destruct (Actor.text input) as [t|]; [|discriminate H].
  destruct (truthy t) eqn:T; simpl in H; [|discriminate H].
  apply truthy_true_cons in T.
  destruct (analyzer g) as [a|]; [|discriminate H].
  destruct (analyze a _ _ _) as [results|] eqn:A; simpl in H;
    [|discriminate H].
  exists t, a, results.
  destruct (Actor.anonymize input) as [[|]|] eqn:F.
  1, 3: destruct (anonymizer g) as [an|]; [|discriminate H];
    destruct (Presidio.anonymize an _ _ _) as [r|]; simpl in H;
    [|discriminate H];
    injection H as <-; simpl;
    repeat split; try easy; try apply reports_map.
  simpl in H. injection H as <-. simpl.
  repeat split; try easy; try apply reports_map.
Qed.

(** Without an analyzer the actor ends on the missing engine as soon as
    it has a text to process. *)
Lemma main_without_analyzer (an : option AnonymizerEngine)
      (input : Actor.Input) (text_to_process : str) :
  Actor.text input = Some text_to_process ->
  text_to_process <> [] ->
  Actor.main (mkGlobals None an) (Some input)
  = none_has_no_attribute "analyze".
Proof.
  intros Ht Hne. unfold Actor.main. rewrite Ht.
  destruct text_to_process as [|c t]; [contradiction|reflexivity].
Qed.

(** The endpoint with anonymization on, once the analyzer has answered
    on a text that is not empty: the anonymizer is run on that text and
    those results under the operator chosen from the mask string, its text
    is the redacted text, and its exception is the call's exception. *)
Lemma redact_pii_anonymizes (g : Globals) (a : AnalyzerEngine)
      (an : AnonymizerEngine) (request : RedactRequest.t)
      (results : list RecognizerResult) :
  analyzer g = Some a ->
  anonymizer g = Some an ->
  RedactRequest.text request <> [] ->
  RedactRequest.anonymize request = true ->
  analyze a (RedactRequest.text request) (RedactRequest.entities request)
          "en" = Ok results ->
  match Presidio.anonymize an (RedactRequest.text request) results
          (if truthy (RedactRequest.mask_char request)
              && (len (RedactRequest.mask_char request) =? 1)
           then [("DEFAULT"%string,
                  Mask (RedactRequest.mask_char request) 100 true)]
           else [("DEFAULT"%string, Replace (lit "<PII>"))])
  with
  | Ok r =>
      exists response,
        redact_pii g request = Ok response
        /\ RedactResponse.redacted_text response = Presidio.text r
        /\ RedactResponse.original_length response
           = len (RedactRequest.text request)
        /\ Forall2 (reports (RedactRequest.text request)) results
                   (RedactResponse.entities_detected response)
  | Raise e => redact_pii g request = Raise e
  end.
Proof.
  intros Ha Hn Ht F A. unfold redact_pii. rewrite Ha, Hn, F, A.
  destruct (truthy (RedactRequest.text request)) eqn:T;
    [|apply truthy_false_nil in T; contradiction].
  cbn [negb bind].
  destruct (Presidio.anonymize an _ _ _) as [r|e]; cbn [bind];
    [|reflexivity].
  eexists. split; [reflexivity|].
  cbn [RedactResponse.redacted_text RedactResponse.original_length
       RedactResponse.entities_detected].
  repeat split. apply reports_map.
Qed.

(** The same for the actor, which anonymizes unless it is told not to. *)
Lemma main_anonymizes (g : Globals) (a : AnalyzerEngine)
      (an : AnonymizerEngine) (text : str) (anonymize : option bool)
      (mask_char : option str) (results : list RecognizerResult) :
  analyzer g = Some a ->
  anonymizer g = Some an ->
  text <> [] ->
  anonymize <> Some false ->
  analyze a text None "en" = Ok results ->
  match Presidio.anonymize an text results
          (if truthy (match mask_char with Some c => c | None => lit "*" end)
              && (len (match mask_char with
                       | Some c => c
                       | None => lit "*"
                       end) =? 1)
           then [("DEFAULT"%string,
                  Mask (match mask_char with
                        | Some c => c
                        | None => lit "*"
                        end) 100 true)]
           else [("DEFAULT"%string, Replace (lit "<PII>"))])
  with
  | Ok r =>
      exists out,
        Actor.main g (Some {| Actor.text := Some text;
                              Actor.anonymize := anonymize;
                              Actor.mask_char := mask_char |})
        = Ok (Actor.Finished out)
        /\ Actor.redacted_text out = Presidio.text r
        /\ Actor.original_length out = len text
        /\ Forall2 (reports text) results (Actor.entities_detected out)
  | Raise e =>
      Actor.main g (Some {| Actor.text := Some text;
                            Actor.anonymize := anonymize;
                            Actor.mask_char := mask_char |})
      = Raise e
  end.
Proof.
  intros Ha Hn Ht F A. unfold Actor.main.
  cbn [Actor.text Actor.anonymize Actor.mask_char].
  rewrite Ha, Hn, A.
  destruct (truthy text) eqn:T;
    [|apply truthy_false_nil in T; contradiction].
  cbn [negb bind].
  assert (S : match anonymize with Some f => f | None => true end = true).
  { destruct anonymize as [[|]|]; congruence. }
  rewrite S.
  destruct (Presidio.anonymize an _ _ _) as [r|e]; cbn [bind];
    [|reflexivity].
  eexists. split; [reflexivity|].
  cbn [Actor.redacted_text Actor.original_length Actor.entities_detected].
  repeat split. apply reports_map.
Qed.

(** After initialisation the two globals are set together. *)
Lemma init_both (ca : result AnalyzerEngine) (cn : result AnonymizerEngine) :
  (exists a an, init ca cn = mkGlobals (Some a) (Some an))
  \/ init ca cn = mkGlobals None None.
Proof.
  unfold init. destruct ca as [a|]; [destruct cn as [an|]|]; eauto.
Qed.

(** A failed start shows in the health check. *)
Lemma health_check_not_loaded (e : exn) (cn : result AnonymizerEngine) :
  nlp_engine_loaded (health_check (init (Raise e) cn)) = false.
Proof. reflexivity. Qed.

(** After a failed start the endpoint answers every request with its
    configuration error. *)
Lemma redact_pii_not_loaded (e : exn) (cn : result AnonymizerEngine)
      (request : RedactRequest.t) :
  redact_pii (init (Raise e) cn) request
  = Raise (HTTPException 500
             "Server Configuration Error: NLP Model Missing").
Proof. reflexivity. Qed.

(** However the start went, the endpoint either has both engines or
    answers with its configuration error: it never reaches for a missing
    engine. *)
Lemma redact_pii_after_init (ca : result AnalyzerEngine)
      (cn : result AnonymizerEngine) (request : RedactRequest.t) :
  (exists a an, init ca cn = mkGlobals (Some a) (Some an))
  \/ redact_pii (init ca cn) request
     = Raise (HTTPException 500
                "Server Configuration Error: NLP Model Missing").
Proof.
  destruct (init_both ca cn) as [H| ->]; [left; exact H|right; reflexivity].
Qed.

End Calls.

(** ** The span merger *)

Section Merger.

Import Core.

Lemma span_leb_start (a b : Span) : span_leb a b = true -> by_start a b.
Proof.
  unfold span_leb, by_start.
  destruct (start a <? start b) eqn:L; [lia|].
  destruct (start b <? start a) eqn:G; [discriminate|]. lia.
Qed.

Lemma span_leb_false_start (a b : Span) :
  span_leb a b = false -> by_start b a.
Proof.
  unfold span_leb, by_start.
  destruct (start a <? start b) eqn:L; [discriminate|]. lia.
Qed.

Lemma Forall_insert (P : Span -> Prop) (x : Span) (l : list Span) :
  P x -> Forall P l -> Forall P (insert x l).
Proof.
  intros Hx Hl. induction Hl as [|y l Hy Hl IH]; simpl.
  - constructor; [exact Hx|constructor].
  - destruct (span_leb x y); repeat constructor; assumption.
Qed.

Lemma insert_sorted (x : Span) (l : list Span) :
  StronglySorted by_start l -> StronglySorted by_start (insert x l).
Proof.
  induction 1 as [|y l Hl IH Hy]; simpl.
  - repeat constructor.
  - destruct (span_leb x y) eqn:C.
    + apply span_leb_start in C.
      constructor; [constructor; assumption|].
      constructor; [exact C|].
      eapply Forall_impl; [|exact Hy].
      unfold by_start in *. intros z Hz. lia.
    + apply span_leb_false_start in C.
      constructor; [exact IH|].
      apply Forall_insert; assumption.
Qed.

Lemma sort_sorted (l : list Span) : StronglySorted by_start (sort l).
Proof.
  induction l as [|x l IH]; simpl; [constructor|].
  apply insert_sorted, IH.
Qed.

(** The sweep keeps the order of its input, leaves no two accepted spans
    overlapping, and accepts nothing that starts before its current
    span. *)
Lemma sweep_resolved (rest : list Span) : forall current,
  StronglySorted by_start (current :: rest) ->
  resolved_spans (sweep current rest)
  /\ Forall (by_start current) (sweep current rest).
Proof.
  unfold resolved_spans.
  induction rest as [|c rest IH]; intros current S; simpl.
  - repeat constructor. unfold by_start. lia.
  - inversion S as [|? ? Srest Hcur]; subst.
    inversion Hcur as [|? ? Hc Hrest]; subst.
    inversion Srest as [|? ? Srest' Hc']; subst.
    destruct (end_ current <=? start c) eqn:Free.
    + apply Z.leb_le in Free.
      destruct (IH c Srest) as [[Ss Sa] Hall].
      assert (Hall' : Forall (by_start current) (sweep c rest)).
      { eapply Forall_impl; [|exact Hall].
        unfold by_start in *. intros z Hz. lia. }
      repeat split.
      * constructor; assumption.
      * constructor; [exact Sa|].
        destruct (sweep c rest) as [|h out]; constructor.
        inversion Hall; subst. unfold apart, by_start in *. lia.
      * constructor; [unfold by_start; lia|exact Hall'].
    + destruct (beats c current).
      * destruct (IH c Srest) as [R Hall]. split; [exact R|].
        eapply Forall_impl; [|exact Hall].
        unfold by_start in *. intros z Hz. lia.
      * apply IH. constructor; assumption.
Qed.

Lemma merge_resolved (all_spans : list Span) :
  resolved_spans (merge all_spans).
Proof.
  unfold merge.
  pose proof (sort_sorted (dedupe all_spans)) as S.
  destruct (sort (dedupe all_spans)) as [|first rest].
  - split; constructor.
  - apply sweep_resolved, S.
Qed.

Lemma dedupe_add_fresh (x : Span) (acc : list Span) :
  Forall (fun a => start a < start x) acc -> dedupe_add x acc = acc ++ [x].
Proof.
  induction 1 as [|a acc Ha _ IH]; simpl; [reflexivity|].
  unfold same_key. destruct (start x =? start a) eqn:E; [lia|].
  simpl. rewrite IH. reflexivity.
Qed.

Lemma dedupe_tiles (spans : list Span) : forall pos n acc,
  tiles pos spans n ->
  Forall (fun a => start a < pos) acc ->
  fold_left (fun acc x => dedupe_add x acc) spans acc = acc ++ spans.
Proof.
  induction spans as [|s rest IH]; intros pos n acc T Hacc; simpl.
  - rewrite app_nil_r. reflexivity.
  - destruct T as (T1 & T2 & T3).
    rewrite dedupe_add_fresh.
    + rewrite (IH (end_ s) n); [rewrite <- app_assoc; reflexivity|exact T3|].
      apply Forall_app. split.
      * eapply Forall_impl; [|exact Hacc]. simpl. intros a Ha. lia.
      * constructor; [lia|constructor].
    + eapply Forall_impl; [|exact Hacc]. simpl. intros a Ha. lia.
Qed.

Lemma sort_tiles (spans : list Span) : forall pos n,
  tiles pos spans n -> sort spans = spans.
Proof.
  induction spans as [|s rest IH]; intros pos n T; simpl; [reflexivity|].
  destruct T as (T1 & T2 & T3).
  rewrite (IH _ _ T3).
  destruct rest as [|y rest]; simpl; [reflexivity|].
  destruct T3 as (T4 & _).
  unfold span_leb. destruct (start s <? start y) eqn:E; [reflexivity|lia].
Qed.

Lemma sweep_tiles (rest : list Span) : forall current pos n,
  tiles pos (current :: rest) n -> sweep current rest = current :: rest.
Proof.
  induction rest as [|c rest IH]; intros current pos n T; simpl;
    [reflexivity|].
  destruct T as (T1 & T2 & T3).
  pose proof T3 as (T4 & _).
  destruct (end_ current <=? start c) eqn:E; [|lia].
  rewrite (IH c (end_ current) n T3). reflexivity.
Qed.

(** Spans that come in ascending order, none empty and no two
    overlapping, go through the merger unchanged. *)
Lemma merge_tiles (spans : list Span) (pos n : Z) :
  tiles pos spans n -> merge spans = spans.
Proof.
  intros T.
  assert (D : dedupe spans = spans).
  { unfold dedupe. apply (dedupe_tiles spans pos n []); [exact T|constructor]. }
  unfold merge. rewrite D, (sort_tiles _ _ _ T).
  destruct spans as [|first rest]; [reflexivity|].
  exact (sweep_tiles _ _ _ _ T).
Qed.

Lemma analyze_resolved (recognizers : list Recognizer) (text : str)
      (allowed : option (list string)) (language : string)
      (spans : list Span) :
  analyze recognizers text allowed language = Ok spans ->
  resolved_spans spans.
Proof.
  unfold analyze. destruct (forallb _ _); [|discriminate].
  intros [= <-]. apply merge_resolved.
Qed.

(** The order and the gaps of the detections carry over to the entities
    that report them. *)
Lemma resolved_reports (text : str) (spans : list Span)
      (entities : list EntityResult.t) :
  Forall2 (reports text) spans entities ->
  resolved_spans spans -> resolved entities.
Proof.
  unfold resolved_spans, resolved.
  induction 1 as [|s e spans entities Hse Hrest IH]; intros [Ss Sa].
  - split; constructor.
  - inversion Ss as [|? ? Ss' Hall]; subst.
    inversion Sa as [|? ? Sa' Hhd]; subst.
    destruct (IH (conj Ss' Sa')) as [Es Ea].
    destruct Hse as (_ & Hst & Hen & _).
    split; constructor; try assumption.
    + clear - Hall Hrest Hst.
      induction Hrest as [|s' e' ? ? Hse' ? IH']; constructor.
      * inversion Hall; subst. destruct Hse' as (_ & Hst' & _).
        unfold by_start in *. lia.
      * inversion Hall; subst. auto.
    + destruct Hrest as [|s' e' ? ? Hse' ?]; constructor.
      inversion Hhd; subst. destruct Hse' as (_ & Hst' & _).
      unfold apart in *. lia.
Qed.

End Merger.

(** ** The rewriter under the mask operator *)

Section Rewriter.

Import Core.

Lemma slice_within (t : str) (a b : Z) :
  0 <= a -> a <= b -> b <= len t ->
  slice t a b = firstn (Z.to_nat (b - a)) (skipn (Z.to_nat a) t).
Proof.
  intros Ha Hab Hb. unfold slice, slice_index.
  destruct (a <?  0) eqn:A; [lia|].
  destruct (b <?  0) eqn:B; [lia|].
  rewrite !Z.min_l by lia. reflexivity.
Qed.

Lemma len_slice (t : str) (a b : Z) :
  0 <= a -> a <= b -> b <= len t -> len (slice t a b) = b - a.
Proof.
  intros Ha Hab Hb. rewrite slice_within by assumption.
  unfold len in *. rewrite length_firstn, length_skipn. lia.
Qed.

Lemma skipn_slice (t : str) (a b : Z) :
  0 <= a -> a <= b -> b <= len t ->
  skipn (Z.to_nat a) t = slice t a b ++ skipn (Z.to_nat b) t.
Proof.
  intros Ha Hab Hb. rewrite slice_within by assumption.
  replace (Z.to_nat b) with (Z.to_nat (b - a) + Z.to_nat a)%nat by lia.
  rewrite <- skipn_skipn. symmetry. apply firstn_skipn.
Qed.

Lemma slice_to_end (t : str) (a : Z) :
  0 <= a -> a <= len t -> slice t a (len t) = skipn (Z.to_nat a) t.
Proof.
  intros Ha Hb. rewrite slice_within by lia.
  apply firstn_all2. unfold len. rewrite length_skipn. lia.
Qed.

Lemma times_char (c : ascii) (n : Z) :
  times [c] n = repeat c (Z.to_nat n).
Proof.
  unfold times. induction (Z.to_nat n) as [|k IH]; simpl; congruence.
Qed.

(** With a count that reaches the span's length the mask operator
    overwrites the whole substring. *)
Lemma operate_mask_whole (c : ascii) (count : Z) (substring : str) :
  len substring <= count ->
  operate (Mask [c] count true) substring
  = repeat c (List.length substring).
Proof.
  intros H. pose proof (len_nonneg substring) as Hn. unfold operate.
  rewrite Z.min_l by lia. rewrite Z.sub_diag.
  rewrite slice_within by lia. simpl firstn.
  rewrite times_char. unfold len. rewrite Nat2Z.id. reflexivity.
Qed.

(** Beyond the count, the leading characters of the substring are left
    as they are. *)
Lemma operate_mask_trailing (c : ascii) (count : Z) (substring : str) :
  0 <= count -> count <= len substring ->
  operate (Mask [c] count true) substring
  = firstn (Z.to_nat (len substring - count)) substring
    ++ repeat c (Z.to_nat count).
Proof.
  intros H0 H. unfold operate.
  rewrite Z.max_l by lia. rewrite Z.min_r by lia.
  rewrite slice_within by lia. rewrite times_char.
  rewrite Z.sub_0_r. reflexivity.
Qed.

Lemma resolve_default (cfg : OperatorConfig) (entity_type : string) :
  resolve [("DEFAULT"%string, cfg)] entity_type = Ok cfg.
Proof.
  unfold resolve. cbn [lookup].
  destruct (String.eqb "DEFAULT" entity_type); [reflexivity|].
  rewrite String.eqb_refl. reflexivity.
Qed.

Lemma paint_app (spans : list Span) (c : ascii) (u v : str) : forall i,
  paint spans c i (u ++ v)
  = paint spans c i u ++ paint spans c (i + len u) v.
Proof.
  induction u as [|ch u IH]; intros i; simpl.
  - unfold len. simpl. rewrite Z.add_0_r. reflexivity.
  - rewrite IH. do 3 f_equal. unfold len. simpl List.length. lia.
Qed.

Lemma paint_ext (spans spans' : list Span) (c : ascii) (u : str) :
  forall i,
  (forall j, i <= j < i + len u -> covered spans j = covered spans' j) ->
  paint spans c i u = paint spans' c i u.
Proof.
  induction u as [|ch u IH]; intros i H; simpl; [reflexivity|].
  unfold len in H. simpl List.length in H.
  rewrite (H i) by lia. f_equal.
  apply IH. intros j Hj. apply H. unfold len in Hj. lia.
Qed.

Lemma paint_clear (spans : list Span) (c : ascii) (u : str) : forall i,
  (forall j, i <= j < i + len u -> covered spans j = false) ->
  paint spans c i u = u.
Proof.
  induction u as [|ch u IH]; intros i H; simpl; [reflexivity|].
  unfold len in H. simpl List.length in H.
  rewrite (H i) by lia. f_equal.
  apply IH. intros j Hj. apply H. unfold len in Hj. lia.
Qed.

Lemma paint_full (spans : list Span) (c : ascii) (u : str) : forall i,
  (forall j, i <= j < i + len u -> covered spans j = true) ->
  paint spans c i u = repeat c (List.length u).
Proof.
  induction u as [|ch u IH]; intros i H; simpl; [reflexivity|].
  unfold len in H. simpl List.length in H.
  rewrite (H i) by lia. f_equal.
  apply IH. intros j Hj. apply H. unfold len in Hj. lia.
Qed.

Lemma tiles_le (spans : list Span) : forall pos n,
  tiles pos spans n -> pos <= n.
Proof.
  induction spans as [|s rest IH]; simpl; intros pos n H; [exact H|].
  destruct H as (H1 & H2 & H3). apply IH in H3. lia.
Qed.

Lemma covered_before (spans : list Span) : forall pos n j,
  tiles pos spans n -> j < pos -> covered spans j = false.
Proof.
  induction spans as [|s rest IH]; simpl; intros pos n j H Hj;
    [reflexivity|].
  destruct H as (H1 & H2 & H3).
  rewrite (IH (end_ s) n j H3) by lia.
  destruct (start s <=? j) eqn:L; [lia|reflexivity].
Qed.

(** The single pass under a one-character mask whose count reaches
    every span: the text comes out with the spans' positions, and only
    those, overwritten by the mask character. *)
Lemma rewrite_mask (c : ascii) (count : Z) (text : str)
      (spans : list Span) : forall pos,
  0 <= pos -> tiles pos spans (len text) ->
  Forall (fun s => end_ s - start s <= count) spans ->
  exists items,
    rewrite text pos spans [("DEFAULT"%string, Mask [c] count true)]
    = Ok (paint spans c pos (skipn (Z.to_nat pos) text), items).
Proof.
  induction spans as [|s rest IH]; intros pos Hpos T L.
  - simpl in *. exists []. rewrite slice_to_end by lia.
    rewrite paint_clear; reflexivity.
  - destruct T as (T1 & T2 & T3).
    inversion L as [|? ? Ls Lrest]; subst.
    pose proof (tiles_le _ _ _ T3) as Hend.
    destruct (IH (end_ s)) as [items E]; [lia|exact T3|exact Lrest|].
    cbn [rewrite]. rewrite E.
    destruct (len text <? end_ s) eqn:C1; [lia|].
    destruct (start s <? 0) eqn:C2; [lia|].
    destruct (end_ s <=? start s) eqn:C3; [lia|].
    rewrite resolve_default. cbn [orb bind fst snd].
    eexists. do 2 f_equal.
    rewrite (skipn_slice text pos (start s)) by lia.
    rewrite (skipn_slice text (start s) (end_ s)) by lia.
    rewrite !paint_app, !len_slice by lia.
    f_equal; [|f_equal].
    + symmetry. apply paint_clear. rewrite len_slice by lia.
      intros j Hj.
      apply (covered_before (s :: rest) (start s) (len text));
        [simpl; repeat split; (lia || assumption)|lia].
    + replace (pos + (start s - pos)) with (start s) by lia.
      rewrite operate_mask_whole by (rewrite len_slice; lia).
      symmetry. apply paint_full. rewrite len_slice by lia.
      intros j Hj. cbn [covered existsb].
      replace (start s <=? j) with true by (symmetry; apply Z.leb_le; lia).
      replace (j <? end_ s) with true by (symmetry; apply Z.ltb_lt; lia).
      reflexivity.
    + replace (pos + (start s - pos) + (end_ s - start s)) with (end_ s)
        by lia.
      apply paint_ext. intros j Hj. cbn [covered existsb].
      replace (j <? end_ s) with false by (symmetry; apply Z.ltb_ge; lia).
      rewrite andb_false_r. reflexivity.
Qed.

(** The anonymizer of the core under a one-character mask whose count
    reaches every span. *)
Lemma apply_mask (c : ascii) (count : Z) (text : str)
      (spans : list Span) :
  tiles 0 spans (len text) ->
  Forall (fun s => end_ s - start s <= count) spans ->
  exists items,
    apply text spans [("DEFAULT"%string, Mask [c] count true)]
    = Ok {| Presidio.text := paint spans c 0 text; items := items |}.
Proof.
  intros T L. unfold apply.
  destruct (rewrite_mask c count text spans 0) as [items E];
    [lia|exact T|exact L|].
  rewrite E. simpl. eexists. reflexivity.
Qed.

(** What [paint] means, position by position. *)
Lemma length_paint (spans : list Span) (c : ascii) (t : str) : forall i,
  List.length (paint spans c i t) = List.length t.
Proof. induction t as [|ch t IH]; intros i; simpl; congruence. Qed.

Lemma nth_paint (spans : list Span) (c d : ascii) (t : str) :
  forall (i : Z) (k : nat),
  (k < List.length t)%nat ->
  nth k (paint spans c i t) d
  = if covered spans (i + Z.of_nat k) then c else nth k t d.
Proof.
  induction t as [|ch t IH]; intros i k Hk; simpl in Hk; [lia|].
  destruct k as [|k]; simpl paint; cbn [nth].
  - rewrite Z.add_0_r. reflexivity.
  - rewrite IH by lia. replace (i + 1 + Z.of_nat k) with (i + Z.of_nat (S k))
      by lia. reflexivity.
Qed.

(** With no span to rewrite the text comes back unchanged. *)
Lemma apply_no_span (text : str) (operators : Operators) :
  apply text [] operators = Ok {| Presidio.text := text; items := [] |}.
Proof.
  unfold apply. simpl.
  rewrite slice_to_end by (pose proof (len_nonneg text); lia).
  reflexivity.
Qed.

Lemma in_dedupe_add (x y : Span) (acc : list Span) :
  In y (dedupe_add x acc) -> y = x \/ In y acc.
Proof.
  induction acc as [|z acc IH]; simpl.
  - intros [H|[]]; auto.
  - destruct (same_key x z).
    + destruct (Qltb (score z) (score x)); simpl; intuition auto.
    + simpl. intuition auto.
Qed.

Lemma in_dedupe (y : Span) (spans : list Span) :
  In y (dedupe spans) -> In y spans.
Proof.
  unfold dedupe.
  assert (G : forall acc,
             In y (fold_left (fun acc x => dedupe_add x acc) spans acc) ->
             In y acc \/ In y spans).
  { induction spans as [|x spans IH]; simpl; intros acc H; [auto|].
    destruct (IH _ H) as [H'|H']; [|auto].
    apply in_dedupe_add in H'. intuition auto. }
  intros H. destruct (G [] H) as [[]|H']. exact H'.
Qed.

Lemma in_insert (x y : Span) (l : list Span) :
  In y (insert x l) -> y = x \/ In y l.
Proof.
  induction l as [|z l IH]; simpl.
  - intros [H|[]]; auto.
  - destruct (span_leb x z); simpl; intuition auto.
Qed.

Lemma in_sort (y : Span) (l : list Span) : In y (sort l) -> In y l.
Proof.
  induction l as [|x l IH]; simpl; [auto|].
  intros H. apply in_insert in H. intuition auto.
Qed.

Lemma in_sweep (y : Span) (rest : list Span) : forall current,
  In y (sweep current rest) -> y = current \/ In y rest.
Proof.
  induction rest as [|c rest IH]; intros current; simpl.
  - intros [H|[]]; auto.
  - destruct (end_ current <=? start c); simpl.
    + intros [H|H]; [auto|]. apply IH in H. intuition auto.
    + destruct (beats c current); intros H; apply IH in H;
        intuition auto.
Qed.

(** The merger invents no span. *)
Lemma in_merge (y : Span) (all_spans : list Span) :
  In y (merge all_spans) -> In y all_spans.
Proof.
  unfold merge. intros H. apply in_dedupe, in_sort.
  destruct (sort (dedupe all_spans)) as [|first rest]; [destruct H|].
  apply in_sweep in H. simpl. intuition auto.
Qed.

Lemma analyze_valid (recognizers : list Recognizer) (text : str)
      (allowed : option (list string)) (language : string)
      (spans : list Span) :
  analyze recognizers text allowed language = Ok spans ->
  Forall (fun s => valid_span text s = true) spans.
Proof.
  unfold analyze. destruct (forallb _ _) eqn:V; [|discriminate].
  intros [= <-]. rewrite forallb_forall in V.
  apply Forall_forall. intros s H. apply V, in_merge, H.
Qed.

Lemma valid_span_bounds (text : str) (s : Span) :
  valid_span text s = true -> 0 <= start s < end_ s /\ end_ s <= len text.
Proof. unfold valid_span. lia. Qed.

Lemma tiles_resolved (text : str) (spans : list Span) :
  Sorted apart spans ->
  Forall (fun s => valid_span text s = true) spans ->
  forall pos,
    pos <= len text ->
    match spans with [] => True | s :: _ => pos <= start s end ->
    tiles pos spans (len text).
Proof.
  induction 1 as [|s rest Srest IH Hhd]; intros V pos Hpos Hrel; simpl.
  - exact Hpos.
  - inversion V as [|? ? Vs Vrest]; subst.
    apply valid_span_bounds in Vs.
    repeat split; try lia.
    apply IH; [exact Vrest|lia|].
    destruct Hhd; [exact I|assumption].
Qed.

(** What the core analyzer returns lies in the text as the rewriter
    expects it. *)
Lemma analyze_tiles (recognizers : list Recognizer) (text : str)
      (allowed : option (list string)) (language : string)
      (spans : list Span) :
  analyze recognizers text allowed language = Ok spans ->
  tiles 0 spans (len text).
Proof.
  intros H.
  pose proof (analyze_valid _ _ _ _ _ H) as V.
  destruct (analyze_resolved _ _ _ _ _ H) as [_ Sa].
  apply tiles_resolved; [exact Sa|exact V|apply len_nonneg|].
  destruct V as [|s rest Vs _]; [exact I|].
  apply valid_span_bounds in Vs. lia.
Qed.

End Rewriter.

(** ** The service on the sample inputs *)

Section Runs.

Example endpoint_masks_sample :
  redact_pii (Core.globals Sample.recognizers) Sample.request
  = Ok Sample.masked.
Proof. vm_compute. reflexivity. Qed.

Example endpoint_replaces_under_wide_mask :
  redact_pii (Core.globals Sample.recognizers) Sample.wide_mask_request
  = Ok Sample.replaced.
Proof. vm_compute. reflexivity. Qed.

Example endpoint_detects_only :
  redact_pii (Core.globals Sample.recognizers) Sample.detect_only_request
  = Ok Sample.untouched.
Proof. vm_compute. reflexivity. Qed.

Example actor_masks_sample :
  Actor.main (Core.globals Sample.recognizers)
             (Some (Sample.actor_input Sample.text))
  = Ok (Actor.Finished Sample.actor_output).
Proof. vm_compute. reflexivity. Qed.

(** The overlapping link inside the address loses to the address. *)
Example merge_sample :
  Core.merge [Sample.email; Sample.url; Sample.phone]
  = [Sample.phone; Sample.email].
Proof. vm_compute. reflexivity. Qed.

(** Offsets are those of the input: once a replacement has changed the
    length they no longer find the entity in the rewritten text. *)
Example offsets_miss_rewritten_text :
  slice Sample.text 29 49 = lit "john.doe@example.com"
  /\ slice (RedactResponse.redacted_text Sample.replaced) 29 49 = lit "".
Proof. split; reflexivity. Qed.

End Runs.

(** ** Properties of the service *)

(** C1: under the mask operator the service builds, a detected span is
    meant to be overwritten whole.  Here it is not: the link of the sample
    is 112 characters long, the count of the operator is 100, and the
    first 12 characters of the link come back in clear. *)
Theorem long_span_keeps_its_head :
  exists response,
    redact_pii (Core.globals [Sample.pattern Sample.long_text [Sample.link]])
               Sample.long_request = Ok response
    /\ RedactResponse.redacted_text response
       = lit "See https://exam" ++ repeat "*"%char 100
    /\ RedactResponse.redacted_text response
       <> paint [Sample.link] "*" 0 Sample.long_text.
Proof.
  eexists. split; [vm_compute; reflexivity|].
  split; [vm_compute; reflexivity|].
  vm_compute. discriminate.
Qed.

(** Where no span is longer than the count of 100, the endpoint on the
    core engines does overwrite every span whole with the mask character
    and leaves the rest of the text as it was. *)
Lemma endpoint_masks_short_spans (recognizers : list Core.Recognizer)
      (text : str) (entities : option (list string)) (c : ascii)
      (spans : list Core.Span) :
  text <> [] ->
  Core.analyze recognizers text entities "en" = Ok spans ->
  Forall (fun s => end_ s - start s <= 100) spans ->
  exists response,
    redact_pii (Core.globals recognizers)
               {| RedactRequest.text := text;
                  RedactRequest.entities := entities;
                  RedactRequest.mask_char := [c];
                  RedactRequest.anonymize := true |} = Ok response
    /\ RedactResponse.redacted_text response = paint spans c 0 text.
Proof.
  intros Ht A L.
  destruct (apply_mask c 100 text spans (analyze_tiles _ _ _ _ _ A) L)
    as [items E].
  unfold redact_pii, Core.globals, init. cbn [analyzer anonymizer].
  cbn [RedactRequest.text RedactRequest.entities
       RedactRequest.mask_char RedactRequest.anonymize].
  destruct (truthy text) eqn:T;
    [|apply truthy_false_nil in T; contradiction].
  cbn [negb].
  change (analyze (Core.analyzer_engine recognizers) text entities "en")
    with (Core.analyze recognizers text entities "en").
  rewrite A. cbn [bind].
  change (truthy [c] && (len [c] =? 1)) with true. cbn iota.
  change (Presidio.anonymize Core.anonymizer_engine) with Core.apply.
  rewrite E. cbn [bind Presidio.text].
  eexists. split; reflexivity.
Qed.

(** C2: the entity list handed back by the endpoint on the core analyzer
    is sorted by start, and each entity ends before the next one
    starts. *)
Theorem entities_detected_resolved (recognizers : list Core.Recognizer)
        (an : option AnonymizerEngine) (request : RedactRequest.t)
        (response : RedactResponse.t) :
  redact_pii (mkGlobals (Some (Core.analyzer_engine recognizers)) an) request
  = Ok response ->
  resolved (RedactResponse.entities_detected response).
Proof.
  intros H.
  destruct (redact_pii_returns _ _ _ H)
    as (a & results & Ha & _ & _ & Hrun & Hempty & Hrep).
  injection Ha as <-.
  apply (resolved_reports _ _ _ Hrep).
  assert (D : RedactRequest.text request = []
              \/ RedactRequest.text request <> []).
  { destruct (RedactRequest.text request); [left|right]; congruence. }
  destruct D as [D|D].
  - destruct (Hempty D) as [-> _]. split; constructor.
  - eapply analyze_resolved. exact (Hrun D).
Qed.

Lemma entities_detected_resolved_witness :
  redact_pii (mkGlobals (Some (Core.analyzer_engine Sample.recognizers))
                        (Some Core.anonymizer_engine)) Sample.request
  = Ok Sample.masked
  /\ resolved (RedactResponse.entities_detected Sample.masked).
Proof.
  split; [vm_compute; reflexivity|].
  apply (entities_detected_resolved Sample.recognizers
           (Some Core.anonymizer_engine) Sample.request).
  vm_compute. reflexivity.
Defined.

(** C3, as stated: a request that configures no operator would be
    rewritten by literal substitution.  It is not: with only a text in the
    body the sample comes back masked with stars, which is not what the
    [<PII>] literal gives. *)
Lemma bare_request_is_masked :
  redact_pii (Core.globals Sample.recognizers) Sample.bare_request
  = Ok Sample.masked
  /\ redact_pii
       (mkGlobals (Some (Core.analyzer_engine Sample.recognizers))
                  (Some (pinned replace_pii Core.anonymizer_engine)))
       Sample.bare_request
     = Ok Sample.replaced
  /\ Sample.masked <> Sample.replaced.
Proof.
  split; [vm_compute; reflexivity|].
  split; [vm_compute; reflexivity|].
  vm_compute. discriminate.
Qed.

(** C3, amended: a request that configures no operator is not rewritten
    by literal substitution.  When the mask character is left out it
    defaults to a star, and with anonymization on and the analyzer
    answering on a text that is not empty, the redacted text is the text
    the anonymizer returns under the mask operator with that star, a count
    of 100, from the end, and an exception of the anonymizer is the call's
    exception; in the endpoint and in the actor alike. *)
Theorem omitted_mask_char_masks_with_star (a : AnalyzerEngine)
        (an : AnonymizerEngine) (text : str)
        (results : list RecognizerResult) :
  text <> [] ->
  (forall entities anonymize,
      anonymize <> Some false ->
      analyze a text entities "en" = Ok results ->
      let request :=
        RedactRequest.validate
          {| RedactRequest.b_text := text;
             RedactRequest.b_entities := entities;
             RedactRequest.b_mask_char := None;
             RedactRequest.b_anonymize := anonymize |} in
      RedactRequest.mask_char request = lit "*"
      /\ match Presidio.anonymize an text results (mask_with (lit "*")) with
         | Ok r =>
             exists response,
               redact_pii (mkGlobals (Some a) (Some an)) request
               = Ok response
               /\ RedactResponse.redacted_text response = Presidio.text r
               /\ RedactResponse.original_length response = len text
               /\ Forall2 (reports text) results
                          (RedactResponse.entities_detected response)
         | Raise e =>
             redact_pii (mkGlobals (Some a) (Some an)) request = Raise e
         end)
  /\ (forall anonymize,
         anonymize <> Some false ->
         analyze a text None "en" = Ok results ->
         let input :=
           {| Actor.text := Some text;
              Actor.anonymize := anonymize;
              Actor.mask_char := None |} in
         match Presidio.anonymize an text results (mask_with (lit "*")) with
         | Ok r =>
             exists out,
               Actor.main (mkGlobals (Some a) (Some an)) (Some input)
               = Ok (Actor.Finished out)
               /\ Actor.redacted_text out = Presidio.text r
               /\ Actor.original_length out = len text
               /\ Forall2 (reports text) results
                          (Actor.entities_detected out)
         | Raise e =>
             Actor.main (mkGlobals (Some a) (Some an)) (Some input)
             = Raise e
         end).
Proof.
  intros Ht. split.
  - intros entities anonymize F A request. split; [reflexivity|].
    assert (F' : RedactRequest.anonymize request = true).
    { subst request. cbn. destruct anonymize as [[|]|]; congruence. }
    exact (redact_pii_anonymizes (mkGlobals (Some a) (Some an)) a an
             request results eq_refl eq_refl Ht F' A).
  - intros anonymize F A input.
    exact (main_anonymizes (mkGlobals (Some a) (Some an)) a an text
             anonymize None results eq_refl eq_refl Ht F A).
Qed.

Lemma omitted_mask_char_masks_with_star_witness :
  Sample.text <> []
  /\ RedactRequest.mask_char Sample.bare_request = lit "*"
  /\ match Presidio.anonymize Core.anonymizer_engine Sample.text
             [Sample.phone; Sample.email] (mask_with (lit "*")) with
     | Ok r =>
         exists response,
           redact_pii (mkGlobals
                         (Some (Core.analyzer_engine Sample.recognizers))
                         (Some Core.anonymizer_engine))
                      Sample.bare_request
           = Ok response
           /\ RedactResponse.redacted_text response = Presidio.text r
           /\ RedactResponse.original_length response = len Sample.text
           /\ Forall2 (reports Sample.text) [Sample.phone; Sample.email]
                      (RedactResponse.entities_detected response)
     | Raise e =>
         redact_pii (mkGlobals
                       (Some (Core.analyzer_engine Sample.recognizers))
                       (Some Core.anonymizer_engine))
                    Sample.bare_request
         = Raise e
     end.
Proof.
  assert (Ht : Sample.text <> []) by (vm_compute; discriminate).
  split; [exact Ht|].
  apply (proj1 (omitted_mask_char_masks_with_star
                  (Core.analyzer_engine Sample.recognizers)
                  Core.anonymizer_engine Sample.text
                  [Sample.phone; Sample.email] Ht)
               None None).
  - discriminate.
  - vm_compute. reflexivity.
Defined.

(** C4: every entity handed back, by the endpoint or by the actor, quotes
    the input text between its own start and end. *)
Theorem entity_text_is_slice_of_input (g : Globals) (text : str) (n : Z)
        (redacted : str) (entities : list EntityResult.t) :
  answered g text n redacted entities ->
  Forall (quotes text) entities.
Proof.
  assert (Q : forall results es,
             Forall2 (reports text) results es -> Forall (quotes text) es).
  { induction 1 as [|res e ? ? (_ & Hs & He & _ & Ht)]; constructor;
      [|assumption].
    unfold quotes. rewrite Hs, He. exact Ht. }
  intros [request response Ht H|input out Ht H].
  - destruct (redact_pii_returns _ _ _ H)
      as (a & results & _ & _ & _ & _ & _ & Hrep).
    rewrite Ht in Hrep. exact (Q _ _ Hrep).
  - destruct (main_finishes _ _ _ H)
      as (t & a & results & Ht' & _ & _ & _ & _ & _ & Hrep).
    rewrite Ht in Ht'. injection Ht' as <-. exact (Q _ _ Hrep).
Qed.

Lemma entity_text_is_slice_of_input_witness :
  answered (Core.globals Sample.recognizers) Sample.text 50
           (RedactResponse.redacted_text Sample.replaced) Sample.entities
  /\ Forall (quotes Sample.text) Sample.entities.
Proof.
  assert (A : answered (Core.globals Sample.recognizers) Sample.text 50
                (RedactResponse.redacted_text Sample.replaced)
                Sample.entities).
  { apply (by_endpoint _ _ Sample.wide_mask_request Sample.replaced);
      vm_compute; reflexivity. }
  split; [exact A|].
  exact (entity_text_is_slice_of_input _ _ _ _ _ A).
Defined.

(** C5: a mask string that is not exactly one character long never
    reaches the anonymizer.  With anonymization on and the analyzer
    answering on a text that is not empty, the endpoint and the actor run
    the anonymizer under the literal [<PII>] replacement: the redacted
    text is the text it returns under that operator, and its exception is
    the call's exception. *)
Theorem wide_mask_falls_back_to_replace (a : AnalyzerEngine)
        (an : AnonymizerEngine) (mask_char : str) (text : str)
        (results : list RecognizerResult) :
  List.length mask_char <> 1%nat ->
  text <> [] ->
  (forall entities,
      analyze a text entities "en" = Ok results ->
      let request :=
        {| RedactRequest.text := text;
           RedactRequest.entities := entities;
           RedactRequest.mask_char := mask_char;
           RedactRequest.anonymize := true |} in
      match Presidio.anonymize an text results replace_pii with
      | Ok r =>
          exists response,
            redact_pii (mkGlobals (Some a) (Some an)) request = Ok response
            /\ RedactResponse.redacted_text response = Presidio.text r
            /\ RedactResponse.original_length response = len text
            /\ Forall2 (reports text) results
                       (RedactResponse.entities_detected response)
      | Raise e =>
          redact_pii (mkGlobals (Some a) (Some an)) request = Raise e
      end)
  /\ (forall anonymize,
         anonymize <> Some false ->
         analyze a text None "en" = Ok results ->
         let input :=
           {| Actor.text := Some text;
              Actor.anonymize := anonymize;
              Actor.mask_char := Some mask_char |} in
         match Presidio.anonymize an text results replace_pii with
         | Ok r =>
             exists out,
               Actor.main (mkGlobals (Some a) (Some an)) (Some input)
               = Ok (Actor.Finished out)
               /\ Actor.redacted_text out = Presidio.text r
               /\ Actor.original_length out = len text
               /\ Forall2 (reports text) results
                          (Actor.entities_detected out)
         | Raise e =>
             Actor.main (mkGlobals (Some a) (Some an)) (Some input)
             = Raise e
         end).
Proof.
  intros H Ht.
  assert (E : truthy mask_char && (len mask_char =? 1) = false).
  { apply andb_false_iff. right. apply Z.eqb_neq. unfold len. lia. }
  split.
  - intros entities A request.
    pose proof (redact_pii_anonymizes (mkGlobals (Some a) (Some an)) a an
                  request results eq_refl eq_refl Ht eq_refl A) as P.
    subst request. cbn [RedactRequest.text RedactRequest.mask_char] in P.
    revert P. rewrite E. intros P. exact P.
  - intros anonymize F A input.
    pose proof (main_anonymizes (mkGlobals (Some a) (Some an)) a an text
                  anonymize (Some mask_char) results eq_refl eq_refl Ht F A)
      as P.
    cbv beta iota in P. revert P. rewrite E. intros P. exact P.
Qed.

Lemma wide_mask_falls_back_to_replace_witness :
  List.length (lit "##") <> 1%nat
  /\ Sample.text <> []
  /\ match Presidio.anonymize Core.anonymizer_engine Sample.text
             [Sample.phone; Sample.email] replace_pii with
     | Ok r =>
         exists response,
           redact_pii (mkGlobals
                         (Some (Core.analyzer_engine Sample.recognizers))
                         (Some Core.anonymizer_engine))
                      {| RedactRequest.text := Sample.text;
                         RedactRequest.entities := None;
                         RedactRequest.mask_char := lit "##";
                         RedactRequest.anonymize := true |}
           = Ok response
           /\ RedactResponse.redacted_text response = Presidio.text r
           /\ RedactResponse.original_length response = len Sample.text
           /\ Forall2 (reports Sample.text) [Sample.phone; Sample.email]
                      (RedactResponse.entities_detected response)
     | Raise e =>
         redact_pii (mkGlobals
                       (Some (Core.analyzer_engine Sample.recognizers))
                       (Some Core.anonymizer_engine))
                    {| RedactRequest.text := Sample.text;
                       RedactRequest.entities := None;
                       RedactRequest.mask_char := lit "##";
                       RedactRequest.anonymize := true |}
         = Raise e
     end.
Proof.
  assert (H : List.length (lit "##") <> 1%nat) by (simpl; lia).
  assert (Ht : Sample.text <> []) by (vm_compute; discriminate).
  split; [exact H|]. split; [exact Ht|].
  apply (proj1 (wide_mask_falls_back_to_replace
                  (Core.analyzer_engine Sample.recognizers)
                  Core.anonymizer_engine (lit "##") Sample.text
                  [Sample.phone; Sample.email] H Ht)
               None).
  vm_compute. reflexivity.
Defined.

(** C6, as stated: an empty input would always come back as an empty
    entity list and an empty text.  After a failed start the endpoint
    answers the empty request with its configuration error, and the actor
    returns on an empty text before it builds any output. *)
Lemma empty_text_without_empty_response :
  redact_pii (init (Raise Sample.model_missing) (Ok Core.anonymizer_engine))
             Sample.empty_request
  = Raise (HTTPException 500 "Server Configuration Error: NLP Model Missing")
  /\ Actor.main (Core.globals Sample.recognizers)
                (Some (Sample.actor_input (lit "")))
     = Ok Actor.EmptyTextProvided.
Proof. split; reflexivity. Qed.

(** C6, amended: on an empty text the endpoint does not run the engines:
    with the analyzer loaded it answers with length 0, an empty text, no
    entity and the [empty_input] status, and after a failed start with its
    configuration error; the actor returns early, without an error and
    without an output record. *)
Theorem empty_text_short_circuits (g : Globals) :
  (forall entities mask_char anonymize,
      redact_pii g {| RedactRequest.text := [];
                      RedactRequest.entities := entities;
                      RedactRequest.mask_char := mask_char;
                      RedactRequest.anonymize := anonymize |}
      = match analyzer g with
        | Some _ =>
            Ok {| RedactResponse.original_length := 0;
                  RedactResponse.redacted_text := [];
                  RedactResponse.entities_detected := [];
                  RedactResponse.metadata :=
                    [("status"%string, MStr "empty_input")] |}
        | None =>
            Raise (HTTPException 500
                     "Server Configuration Error: NLP Model Missing")
        end)
  /\ (forall anonymize mask_char,
         Actor.main g (Some {| Actor.text := Some [];
                               Actor.anonymize := anonymize;
                               Actor.mask_char := mask_char |})
         = Ok Actor.EmptyTextProvided).
Proof.
  split; intros.
  - unfold redact_pii. destruct (analyzer g); reflexivity.
  - reflexivity.
Qed.

(** C7: after a failed start no call should end on a missing engine.  The
    actor does: it has no guard of its own, reaches for the analyzer that
    is [None], and its local fallback input ends in the attribute error. *)
Theorem actor_reaches_for_missing_analyzer (e : exn)
        (create_anonymizer : result AnonymizerEngine) :
  Actor.main (init (Raise e) create_anonymizer) (Some Sample.local_input)
  = Raise (AttributeError "'NoneType' object has no attribute 'analyze'").
Proof. reflexivity. Qed.

(** C8: every entity of a response reports one detection of the analyzer,
    in the analyzer's order: its type, its start, its end, its score
    rounded to four decimal digits, and the text it matched. *)
Theorem entities_report_detections (g : Globals) (request : RedactRequest.t)
        (response : RedactResponse.t) :
  redact_pii g request = Ok response ->
  exists the_analyzer results,
    analyzer g = Some the_analyzer
    /\ (RedactRequest.text request <> [] ->
        analyze the_analyzer (RedactRequest.text request)
                (RedactRequest.entities request) "en" = Ok results)
    /\ Forall2 (reports (RedactRequest.text request)) results
               (RedactResponse.entities_detected response).
Proof.
  intros H.
  destruct (redact_pii_returns _ _ _ H)
    as (a & results & Ha & _ & _ & Hrun & _ & Hrep).
  exists a, results. auto.
Qed.

Lemma entities_report_detections_witness :
  redact_pii (Core.globals Sample.recognizers) Sample.request
  = Ok Sample.masked
  /\ exists the_analyzer results,
      analyzer (Core.globals Sample.recognizers) = Some the_analyzer
      /\ (RedactRequest.text Sample.request <> [] ->
          analyze the_analyzer (RedactRequest.text Sample.request)
                  (RedactRequest.entities Sample.request) "en" = Ok results)
      /\ Forall2 (reports (RedactRequest.text Sample.request)) results
                 (RedactResponse.entities_detected Sample.masked).
Proof.
  assert (H : redact_pii (Core.globals Sample.recognizers) Sample.request
              = Ok Sample.masked) by (vm_compute; reflexivity).
  split; [exact H|].
  exact (entities_report_detections _ _ _ H).
Defined.

(** C9: in detection-only mode the endpoint answers as soon as the
    analyzer does, the anonymizer is not run, the text comes back
    character for character, and the entities report the whole
    detection. *)
Theorem detection_only_leaves_text (g : Globals) (a : AnalyzerEngine)
        (request : RedactRequest.t) (results : list RecognizerResult) :
  RedactRequest.anonymize request = false ->
  analyzer g = Some a ->
  analyze a (RedactRequest.text request) (RedactRequest.entities request)
          "en" = Ok results ->
  Forall (within (RedactRequest.text request)) results ->
  exists response,
    redact_pii g request = Ok response
    /\ RedactResponse.redacted_text response = RedactRequest.text request
    /\ Forall2 (reports (RedactRequest.text request)) results
               (RedactResponse.entities_detected response).
Proof.
  intros F Ha A W. unfold redact_pii. rewrite Ha, F.
  destruct (truthy (RedactRequest.text request)) eqn:T; cbn [negb].
  - rewrite A. cbn [bind]. eexists. split; [reflexivity|].
    cbn [RedactResponse.redacted_text RedactResponse.entities_detected].
    split; [reflexivity|apply reports_map].
  - apply truthy_false_nil in T. rewrite T in *.
    assert (E : results = []).
    { destruct W as [|res ? [H1 H2] _]; [reflexivity|].
      unfold len in H2. simpl in H2. lia. }
    rewrite E. eexists. split; [reflexivity|].
    split; [reflexivity|constructor].
Qed.

Lemma detection_only_leaves_text_witness :
  exists response,
    redact_pii (Core.globals Sample.recognizers) Sample.detect_only_request
    = Ok response
    /\ RedactResponse.redacted_text response = Sample.text
    /\ Forall2 (reports Sample.text) [Sample.phone; Sample.email]
               (RedactResponse.entities_detected response).
Proof.
  apply (detection_only_leaves_text
           (Core.globals Sample.recognizers)
           (Core.analyzer_engine Sample.recognizers)
           Sample.detect_only_request [Sample.phone; Sample.email]).
  - reflexivity.
  - reflexivity.
  - vm_compute. reflexivity.
  - repeat constructor; vm_compute; discriminate.
Defined.

(** C10: the length handed back, by the endpoint or by the actor, is the
    length of the input text, whatever the rewriting did to the text. *)
Theorem original_length_is_input_length (g : Globals) (text : str) (n : Z)
        (redacted : str) (entities : list EntityResult.t) :
  answered g text n redacted entities ->
  n = len text.
Proof.
  intros [request response Ht H|input out Ht H].
  - destruct (redact_pii_returns _ _ _ H) as (a & results & _ & Hn & _).
    rewrite Hn, Ht. reflexivity.
  - destruct (main_finishes _ _ _ H)
      as (t & a & results & Ht' & _ & _ & _ & Hn & _).
    rewrite Ht in Ht'. injection Ht' as <-. exact Hn.
Qed.

Lemma original_length_is_input_length_witness :
  answered (Core.globals Sample.recognizers) Sample.text 50
           (RedactResponse.redacted_text Sample.replaced) Sample.entities
  /\ 50 = len Sample.text.
Proof.
  assert (A : answered (Core.globals Sample.recognizers) Sample.text 50
                (RedactResponse.redacted_text Sample.replaced)
                Sample.entities).
  { apply (by_endpoint _ _ Sample.wide_mask_request Sample.replaced);
      vm_compute; reflexivity. }
  split; [exact A|].
  exact (original_length_is_input_length _ _ _ _ _ A).
Defined.

(** ** The actor's shell *)

Section ShellRuns.

Import Shell.

(** A whole run, stage by stage: the input is read, the core of [main]
    decides how the run ends, and only an output record is delivered. *)
Lemma main_stages (client : option ApifyClient)
      (local_input_json : option (result (option Actor.Input)))
      (g : Globals) :
  Shell.main client local_input_json g
  = match read_input client local_input_json with
    | Raise e => ([Print (Line "Starting SecureRedact Actor...")], Raise e)
    | Ok actor_input =>
        match Actor.main g actor_input with
        | Ok Actor.NoTextProvided =>
            ([Print (Line "Starting SecureRedact Actor...");
              Print (Line "ERROR: No text provided in input.")],
             Ok Actor.NoTextProvided)
        | Ok Actor.EmptyTextProvided =>
            ([Print (Line "Starting SecureRedact Actor...");
              Print (Line "Empty text provided.")],
             Ok Actor.EmptyTextProvided)
        | Raise e =>
            ([Print (Line "Starting SecureRedact Actor...");
              Print (ProcessingTextLength (processed_length actor_input))],
             Raise e)
        | Ok (Actor.Finished output_data) =>
            (Print (Line "Starting SecureRedact Actor...")
               :: Print (ProcessingTextLength (processed_length actor_input))
               :: fst (deliver client output_data)
               ++ match snd (deliver client output_data) with
                  | Ok _ => [Print (Line "Actor finished successfully.")]
                  | Raise _ => []
                  end,
             match snd (deliver client output_data) with
             | Ok _ => Ok (Actor.Finished output_data)
             | Raise e => Raise e
             end)
        end
    end.
Proof.
  unfold Shell.main, Actor.main, deliver, processed_length.
  unfold io_bind, tell, lift, ret, call. cbn [fst snd app].
  destruct (read_input client local_input_json) as [[input|]|e];
    cbn [fst snd app]; try reflexivity.
  destruct (Actor.text input) as [t|]; cbn [fst snd app]; try reflexivity.
  destruct (truthy t); cbn [negb fst snd app]; try reflexivity.
  destruct (analyzer g) as [a|]; cbn [fst snd app bind none_has_no_attribute];
    try reflexivity.
  destruct (analyze a t None "en") as [results|e];
    cbn [fst snd app bind]; try reflexivity.
  destruct (match Actor.anonymize input with Some f => f | None => true end).
  - destruct (anonymizer g) as [an|];
      cbn [fst snd app bind none_has_no_attribute]; try reflexivity.
    destruct (Presidio.anonymize an t results _) as [r|e];
      cbn [fst snd app bind]; try reflexivity.
    destruct client as [c|]; cbn [fst snd app]; try reflexivity.
    destruct (push_items c _); cbn [fst snd app]; try reflexivity.
    destruct (set_record c _ _); cbn [fst snd app]; reflexivity.
  - cbn [fst snd app bind].
    destruct client as [c|]; cbn [fst snd app]; try reflexivity.
    destruct (push_items c _); cbn [fst snd app]; try reflexivity.
    destruct (set_record c _ _); cbn [fst snd app]; reflexivity.
Qed.

End ShellRuns.

(** ** Further properties of the endpoint and of the actor *)

(** The entities of an answer report some list of detections. *)
Lemma answered_reports (g : Globals) (text : str) (n : Z) (redacted : str)
      (entities : list EntityResult.t) :
  answered g text n redacted entities ->
  exists results, Forall2 (reports text) results entities.
Proof.
  intros [request response Ht H|input out Ht H].
  - destruct (redact_pii_returns _ _ _ H)
      as (a & results & _ & _ & _ & _ & _ & Hrep).
    rewrite Ht in Hrep. eauto.
  - destruct (main_finishes _ _ _ H)
      as (t & a & results & Ht' & _ & _ & _ & _ & _ & Hrep).
    rewrite Ht in Ht'. injection Ht' as <-. eauto.
Qed.

(** A score rounded to four digits stays in the unit interval. *)
Lemma rounded4_unit (x y : Q) :
  rounded4 x y -> (0 <= x)%Q -> (x <= 1)%Q -> (0 <= y)%Q /\ (y <= 1)%Q.
Proof.
  intros (n & -> & H) H0 H1.
  apply Qabs_Qle_condition in H.
  assert (E : (n # 10000 == inject_Z n * (1 # 10000))%Q).
  { unfold Qeq, inject_Z, Qmult. simpl. lia. }
  rewrite E in H. destruct H as [Hlo Hhi].
  assert (L : (inject_Z (-1) < inject_Z n)%Q).
  { change (inject_Z (-1)) with (-1 # 1)%Q. lra. }
  assert (U : (inject_Z n < inject_Z 10001)%Q).
  { change (inject_Z 10001) with (10001 # 1)%Q. lra. }
  rewrite <- Zlt_Qlt in L, U.
  unfold Qle. simpl. lia.
Qed.

(** X1: the health check always says [operational]; its flag is set
    exactly when both engines were built, since a failure of either one
    leaves both globals empty. *)
Theorem health_reports_both_engines (ca : result AnalyzerEngine)
        (cn : result AnonymizerEngine) :
  status (health_check (init ca cn)) = "operational"%string
  /\ (nlp_engine_loaded (health_check (init ca cn)) = true
      <-> exists a an, ca = Ok a /\ cn = Ok an).
Proof.
  split; [reflexivity|].
  destruct ca as [a|e]; [destruct cn as [an|e]|]; simpl; split.
  - intros _. eauto.
  - reflexivity.
  - discriminate.
  - intros (? & ? & _ & [=]).
  - discriminate.
  - intros (? & ? & [=] & _).
Qed.

(** X2: with both engines there, the endpoint has no failure of its own:
    it raises exactly what the analyzer raises on the request's text, or
    what the anonymizer raises on the analyzer's results under the
    operator chosen from the mask string, and nothing on an empty text. *)
Theorem endpoint_fails_with_its_engines (a : AnalyzerEngine)
        (an : AnonymizerEngine) (request : RedactRequest.t) (e : exn) :
  redact_pii (mkGlobals (Some a) (Some an)) request = Raise e
  <-> RedactRequest.text request <> []
      /\ (analyze a (RedactRequest.text request)
                  (RedactRequest.entities request) "en" = Raise e
          \/ exists results,
              analyze a (RedactRequest.text request)
                      (RedactRequest.entities request) "en" = Ok results
              /\ RedactRequest.anonymize request = true
              /\ Presidio.anonymize an (RedactRequest.text request) results
                   (if truthy (RedactRequest.mask_char request)
                       && (len (RedactRequest.mask_char request) =? 1)
                    then mask_with (RedactRequest.mask_char request)
                    else replace_pii)
                 = Raise e).
Proof.
  unfold redact_pii, mask_with, replace_pii. cbn [analyzer anonymizer].
  destruct (truthy (RedactRequest.text request)) eqn:T; cbn [negb].
  - apply truthy_true_cons in T.
    destruct (analyze a _ _ _) as [results|e0]; cbn [bind].
    + destruct (RedactRequest.anonymize request); cbn [bind].
      * destruct (Presidio.anonymize an _ _ _) as [r|e1] eqn:N; cbn [bind].
        -- split; [discriminate|].
           intros (_ & [[=]|(rs & E & _ & H)]).
           injection E as E. subst rs.
           generalize (eq_trans (eq_sym N) H). discriminate.
        -- split.
           ++ intros [= <-]. split; [exact T|]. right.
              exists results. repeat split. exact N.
           ++ intros (_ & [[=]|(rs & E & _ & H)]).
              injection E as E. subst rs.
              generalize (eq_trans (eq_sym N) H). intros [= ->].
              reflexivity.
      * split; [discriminate|].
        intros (_ & [[=]|(rs & _ & [=] & _)]).
    + split.
      * intros [= <-]. auto.
      * intros (_ & [[= ->]|(rs & [=] & _)]). reflexivity.
  - apply truthy_false_nil in T.
    split; [discriminate|]. intros (H & _). contradiction.
Qed.

(** X3: the [entity_count] of a response is the number of entities it
    lists; only the answer to an empty text carries the [empty_input]
    status instead. *)
Theorem entity_count_counts_entities (g : Globals)
        (request : RedactRequest.t) (response : RedactResponse.t) :
  redact_pii g request = Ok response ->
  RedactResponse.metadata response
  = match RedactRequest.text request with
    | [] => [("status", MStr "empty_input")]
    | _ :: _ =>
        [("engine", MStr "presidio-lite");
         ("model", MStr "en_core_web_sm");
         ("entity_count",
          MInt (len (RedactResponse.entities_detected response)))]
    end%string.
Proof.
  unfold redact_pii. intros H.
  destruct (analyzer g) as [a|]; [|discriminate H].
  destruct (RedactRequest.text request) as [|ch t] eqn:T.
  - injection H as <-. reflexivity.
  - change (truthy (ch :: t)) with true in H. cbn [negb] in H.
    destruct (analyze a _ _ _) as [results|]; cbn [bind] in H;
      [|discriminate H].
    destruct (RedactRequest.anonymize request).
    + destruct (anonymizer g) as [an|]; [|discriminate H].
      destruct (Presidio.anonymize an _ _ _) as [r|]; cbn [bind] in H;
        [|discriminate H].
      injection H as <-. reflexivity.
    + cbn [bind] in H. injection H as <-. reflexivity.
Qed.

Lemma entity_count_counts_entities_witness :
  redact_pii (Core.globals Sample.recognizers) Sample.request
  = Ok Sample.masked
  /\ RedactResponse.metadata Sample.masked
     = [("engine", MStr "presidio-lite");
        ("model", MStr "en_core_web_sm");
        ("entity_count",
         MInt (len (RedactResponse.entities_detected Sample.masked)))]%string.
Proof.
  assert (H : redact_pii (Core.globals Sample.recognizers) Sample.request
              = Ok Sample.masked) by (vm_compute; reflexivity).
  split; [exact H|].
  exact (entity_count_counts_entities _ _ _ H).
Defined.

(** X4: what the endpoint reports about the detection does not depend on
    how the text is anonymized: two requests for the same text and entity
    filter get the same entities, length and metadata, whatever their
    mask string, their anonymize flag and the anonymizer at work. *)
Theorem detection_report_ignores_anonymization (a : AnalyzerEngine)
        (an an' : option AnonymizerEngine) (request request' : RedactRequest.t)
        (response response' : RedactResponse.t) :
  RedactRequest.text request = RedactRequest.text request' ->
  RedactRequest.entities request = RedactRequest.entities request' ->
  redact_pii (mkGlobals (Some a) an) request = Ok response ->
  redact_pii (mkGlobals (Some a) an') request' = Ok response' ->
  RedactResponse.entities_detected response
  = RedactResponse.entities_detected response'
  /\ RedactResponse.original_length response
     = RedactResponse.original_length response'
  /\ RedactResponse.metadata response = RedactResponse.metadata response'.
Proof.
  unfold redact_pii. cbn [analyzer anonymizer].
  intros <- <- H H'.
  destruct (truthy (RedactRequest.text request)); cbn [negb] in *.
  - destruct (analyze a _ _ _) as [results|]; cbn [bind] in *;
      [|discriminate H].
    destruct (RedactRequest.anonymize request);
      [destruct an as [n|]; [|discriminate H];
       destruct (Presidio.anonymize n _ _ _); cbn [bind] in H;
       [|discriminate H]
      |cbn [bind] in H];
      (destruct (RedactRequest.anonymize request');
       [destruct an' as [n'|]; [|discriminate H'];
        destruct (Presidio.anonymize n' _ _ _); cbn [bind] in H';
        [|discriminate H']
       |cbn [bind] in H']);
      injection H as <-; injection H' as <-; auto.
  - injection H as <-. injection H' as <-. auto.
Qed.

Lemma detection_report_ignores_anonymization_witness :
  RedactResponse.entities_detected Sample.masked
  = RedactResponse.entities_detected Sample.untouched
  /\ RedactResponse.original_length Sample.masked
     = RedactResponse.original_length Sample.untouched
  /\ RedactResponse.metadata Sample.masked
     = RedactResponse.metadata Sample.untouched.
Proof.
  apply (detection_report_ignores_anonymization
           (Core.analyzer_engine Sample.recognizers)
           (Some Core.anonymizer_engine) None
           Sample.request Sample.detect_only_request).
  - reflexivity.
  - reflexivity.
  - vm_compute. reflexivity.
  - vm_compute. reflexivity.
Defined.

(** X5: on a text that is not empty and with the analyzer loaded, the
    actor does what the endpoint does for the same text, mask string and
    flag with no entity filter: the same length, text and entities in its
    output record, and the same exception when an engine raises. *)
Theorem actor_agrees_with_endpoint (g : Globals) (a : AnalyzerEngine)
        (text : str) (mask_char : option str) (anonymize : option bool) :
  analyzer g = Some a ->
  text <> [] ->
  Actor.main g (Some {| Actor.text := Some text;
                        Actor.anonymize := anonymize;
                        Actor.mask_char := mask_char |})
  = (response <-
       redact_pii g (RedactRequest.validate
                       {| RedactRequest.b_text := text;
                          RedactRequest.b_entities := None;
                          RedactRequest.b_mask_char := mask_char;
                          RedactRequest.b_anonymize := anonymize |}) ;;
     Ok (Actor.Finished
           {| Actor.original_length :=
                RedactResponse.original_length response;
              Actor.redacted_text := RedactResponse.redacted_text response;
              Actor.entities_detected :=
                RedactResponse.entities_detected response;
              Actor.is_success := true |})).
Proof.
  intros Ha Ht. unfold Actor.main, redact_pii, RedactRequest.validate.
  cbn [Actor.text Actor.anonymize Actor.mask_char
       RedactRequest.text RedactRequest.entities RedactRequest.mask_char
       RedactRequest.anonymize RedactRequest.b_text
       RedactRequest.b_entities RedactRequest.b_mask_char
       RedactRequest.b_anonymize].
  rewrite Ha.
  destruct (truthy text) eqn:T;
    [|apply truthy_false_nil in T; contradiction].
  cbn [negb].
  destruct (analyze a text None "en") as [results|e]; cbn [bind];
    [|reflexivity].
  destruct (match anonymize with Some f => f | None => true end);
    cbn [bind]; [|reflexivity].
  destruct (anonymizer g) as [an|]; [|reflexivity].
  destruct (Presidio.anonymize an _ _ _) as [r|e]; reflexivity.
Qed.

Lemma actor_agrees_with_endpoint_witness :
  Actor.main (Core.globals Sample.recognizers)
             (Some (Sample.actor_input Sample.text))
  = (response <-
       redact_pii (Core.globals Sample.recognizers) Sample.bare_request ;;
     Ok (Actor.Finished
           {| Actor.original_length :=
                RedactResponse.original_length response;
              Actor.redacted_text := RedactResponse.redacted_text response;
              Actor.entities_detected :=
                RedactResponse.entities_detected response;
              Actor.is_success := true |})).
Proof.
  apply (actor_agrees_with_endpoint
           (Core.globals Sample.recognizers)
           (Core.analyzer_engine Sample.recognizers) Sample.text None None).
  - reflexivity.
  - vm_compute. discriminate.
Defined.



(** X7: the actor in detection-only mode finishes as soon as the analyzer
    answers, without the anonymizer, and its record carries the text as it
    was read together with the whole detection. *)
Theorem actor_detection_only_leaves_text (g : Globals) (a : AnalyzerEngine)
        (input : Actor.Input) (text : str)
        (results : list RecognizerResult) :
  Actor.text input = Some text ->
  text <> [] ->
  Actor.anonymize input = Some false ->
  analyzer g = Some a ->
  analyze a text None "en" = Ok results ->
  exists out,
    Actor.main g (Some input) = Ok (Actor.Finished out)
    /\ Actor.redacted_text out = text
    /\ Actor.original_length out = len text
    /\ Forall2 (reports text) results (Actor.entities_detected out).
Proof.
  intros Ht Hne F Ha A. unfold Actor.main. rewrite Ht, F, Ha.
  destruct (truthy text) eqn:T;
    [|apply truthy_false_nil in T; contradiction].
  cbn [negb]. rewrite A. cbn [bind].
  eexists. split; [reflexivity|].
  cbn [Actor.redacted_text Actor.original_length Actor.entities_detected].
  repeat split. apply reports_map.
Qed.

Lemma actor_detection_only_leaves_text_witness :
  exists out,
    Actor.main (mkGlobals (Some (Core.analyzer_engine Sample.recognizers))
                          None)
               (Some {| Actor.text := Some Sample.text;
                        Actor.anonymize := Some false;
                        Actor.mask_char := None |})
    = Ok (Actor.Finished out)
    /\ Actor.redacted_text out = Sample.text
    /\ Actor.original_length out = len Sample.text
    /\ Forall2 (reports Sample.text) [Sample.phone; Sample.email]
               (Actor.entities_detected out).
Proof.
  apply (actor_detection_only_leaves_text
           (mkGlobals (Some (Core.analyzer_engine Sample.recognizers)) None)
           (Core.analyzer_engine Sample.recognizers)).
  - reflexivity.
  - vm_compute. discriminate.
  - reflexivity.
  - reflexivity.
  - vm_compute. reflexivity.
Defined.

(** X8: an entity whose offsets lie in the text, start before end, reports
    a text of exactly end minus start characters. *)
Theorem entity_text_has_span_length (g : Globals) (text : str) (n : Z)
        (redacted : str) (entities : list EntityResult.t) :
  answered g text n redacted entities ->
  Forall (fun e =>
            0 <= EntityResult.start e ->
            EntityResult.start e <= EntityResult.end_ e ->
            EntityResult.end_ e <= len text ->
            len (EntityResult.text e)
            = EntityResult.end_ e - EntityResult.start e)
         entities.
Proof.
  intros H. destruct (answered_reports _ _ _ _ _ H) as [results Hrep].
  clear H. induction Hrep as [|res e ? ? (_ & Hs & He & _ & Ht) _ IH];
    constructor; [|exact IH].
  intros H0 H1 H2. rewrite Ht, Hs, He in *. apply len_slice; assumption.
Qed.

Lemma entity_text_has_span_length_witness :
  answered (Core.globals Sample.recognizers) Sample.text 50
           (RedactResponse.redacted_text Sample.replaced) Sample.entities
  /\ Forall (fun e =>
               0 <= EntityResult.start e ->
               EntityResult.start e <= EntityResult.end_ e ->
               EntityResult.end_ e <= len Sample.text ->
               len (EntityResult.text e)
               = EntityResult.end_ e - EntityResult.start e)
            Sample.entities.
Proof.
  assert (A : answered (Core.globals Sample.recognizers) Sample.text 50
                (RedactResponse.redacted_text Sample.replaced)
                Sample.entities).
  { apply (by_endpoint _ _ Sample.wide_mask_request Sample.replaced);
      vm_compute; reflexivity. }
  split; [exact A|].
  exact (entity_text_has_span_length _ _ _ _ _ A).
Defined.

(** X9: rounding does not take a score out of the unit interval: when the
    analyzer's scores on the request lie between 0 and 1, so do the scores
    of the response. *)
Theorem reported_scores_stay_in_unit_interval (g : Globals)
        (a : AnalyzerEngine) (request : RedactRequest.t)
        (response : RedactResponse.t) :
  analyzer g = Some a ->
  (forall results,
      analyze a (RedactRequest.text request)
              (RedactRequest.entities request) "en" = Ok results ->
      Forall (fun res => (0 <= score res)%Q /\ (score res <= 1)%Q) results) ->
  redact_pii g request = Ok response ->
  Forall (fun e => (0 <= EntityResult.score e)%Q
                   /\ (EntityResult.score e <= 1)%Q)
         (RedactResponse.entities_detected response).
Proof.
  intros Ha Hscores H.
  destruct (redact_pii_returns _ _ _ H)
    as (a' & results & Ha' & _ & _ & Hrun & Hempty & Hrep).
  rewrite Ha in Ha'. injection Ha' as <-.
  assert (B : Forall (fun res => (0 <= score res)%Q /\ (score res <= 1)%Q)
                     results).
  { destruct (RedactRequest.text request) as [|ch t] eqn:T.
    - destruct Hempty as [-> _]; [reflexivity|constructor].
    - apply Hscores, Hrun. discriminate. }
  clear - Hrep B.
  induction Hrep as [|res e ? ? (_ & _ & _ & Hr & _) _ IH]; constructor.
  - inversion B as [|? ? [B0 B1] _]; subst.
    exact (rounded4_unit _ _ Hr B0 B1).
  - apply IH. inversion B; assumption.
Qed.

Lemma reported_scores_stay_in_unit_interval_witness :
  redact_pii (Core.globals Sample.recognizers) Sample.request
  = Ok Sample.masked
  /\ Forall (fun e => (0 <= EntityResult.score e)%Q
                      /\ (EntityResult.score e <= 1)%Q)
            (RedactResponse.entities_detected Sample.masked).
Proof.
  assert (H : redact_pii (Core.globals Sample.recognizers) Sample.request
              = Ok Sample.masked) by (vm_compute; reflexivity).
  split; [exact H|].
  apply (reported_scores_stay_in_unit_interval
           (Core.globals Sample.recognizers)
           (Core.analyzer_engine Sample.recognizers) Sample.request).
  - reflexivity.
  - intros results A. vm_compute in A. injection A as <-.
    repeat constructor; vm_compute; discriminate.
  - exact H.
Defined.

(** An output record of the actor's core is well formed. *)
Lemma main_finished_well_formed (g : Globals)
      (actor_input : option Actor.Input) (out : Actor.OutputData) :
  Actor.main g actor_input = Ok (Actor.Finished out) ->
  Shell.well_formed out
  /\ Actor.original_length out = Shell.processed_length actor_input.
Proof.
  unfold Actor.main, Shell.well_formed, Shell.processed_length. intros H.
  destruct actor_input as [input|]; [|discriminate H].
  destruct (Actor.text input) as [t|]; [|discriminate H].
  destruct (truthy t) eqn:T; cbn [negb] in H; [|discriminate H].
  assert (L : 0 < len t).
  { apply truthy_true_cons in T. destruct t; [contradiction|].
    unfold len. simpl List.length. lia. }
  destruct (analyzer g) as [a|]; [|discriminate H].
  destruct (analyze a _ _ _) as [results|]; cbn [bind] in H;
    [|discriminate H].
  destruct (match Actor.anonymize input with Some f => f | None => true end).
  - destruct (anonymizer g) as [an|]; [|discriminate H].
    destruct (Presidio.anonymize an _ _ _) as [r|]; cbn [bind] in H;
      [|discriminate H].
    injection H as <-. cbn. auto.
  - cbn [bind] in H. injection H as <-. cbn. auto.
Qed.

(** X10: how a run of the actor ends is decided by its stages in order:
    reading the input, the core of [main] on that input, and, for an
    output record with a client, the two store calls; the first exception
    among them is the run's exception, and printing changes nothing. *)
Theorem run_ends_as_its_stages
        (client : option Shell.ApifyClient)
        (local_input_json : option (result (option Actor.Input)))
        (g : Globals) :
  snd (Shell.main client local_input_json g)
  = (actor_input <- Shell.read_input client local_input_json ;;
     outcome <- Actor.main g actor_input ;;
     match outcome, client with
     | Actor.Finished output_data, Some c =>
         pushed <- Shell.push_items c [output_data] ;;
         stored <- Shell.set_record c "OUTPUT" output_data ;;
         Ok outcome
     | _, _ => Ok outcome
     end).
Proof.
  rewrite main_stages.
  destruct (Shell.read_input client local_input_json) as [ai|e];
    cbn [bind snd]; [|reflexivity].
  destruct (Actor.main g ai) as [[| |out]|e]; cbn [bind snd];
    try reflexivity.
  unfold Shell.deliver, Shell.io_bind, Shell.call, Shell.tell.
  destruct client as [c|]; cbn [fst snd]; [|reflexivity].
  destruct (Shell.push_items c [out]) as [[]|e]; cbn [fst snd bind];
    [|reflexivity].
  destruct (Shell.set_record c "OUTPUT" out) as [[]|e];
    cbn [fst snd bind]; reflexivity.
Qed.

(** X11: a run that returns has written to the platform only if it
    finished with an output record and has a client; then it pushed that
    one record to the dataset and stored the same record under [OUTPUT],
    in this order and nothing else. *)
Theorem run_store_calls
        (client : option Shell.ApifyClient)
        (local_input_json : option (result (option Actor.Input)))
        (g : Globals) (outcome : Actor.outcome) :
  snd (Shell.main client local_input_json g) = Ok outcome ->
  Shell.store_calls (fst (Shell.main client local_input_json g))
  = match outcome, client with
    | Actor.Finished output_data, Some _ =>
        [Shell.PushItems [output_data];
         Shell.SetRecord "OUTPUT" output_data]
    | _, _ => []
    end.
Proof.
  rewrite main_stages.
  destruct (Shell.read_input client local_input_json) as [ai|e];
    cbn [fst snd]; [|discriminate].
  destruct (Actor.main g ai) as [[| |out]|e]; cbn [fst snd];
    try discriminate.
  - intros [= <-]. destruct client; reflexivity.
  - intros [= <-]. destruct client; reflexivity.
  - unfold Shell.deliver, Shell.io_bind, Shell.call, Shell.tell.
    destruct client as [c|]; cbn [fst snd].
    + destruct (Shell.push_items c [out]) as [[]|e]; cbn [fst snd];
        [|discriminate].
      destruct (Shell.set_record c "OUTPUT" out) as [[]|e]; cbn [fst snd];
        [|discriminate].
      intros [= <-]. reflexivity.
    + intros [= <-]. reflexivity.
Qed.

Lemma run_store_calls_witness :
  snd (Shell.main (Some (Shell.accepting (Sample.actor_input Sample.text)))
                  None (Core.globals Sample.recognizers))
  = Ok (Actor.Finished Sample.actor_output)
  /\ Shell.store_calls
       (fst (Shell.main
               (Some (Shell.accepting (Sample.actor_input Sample.text)))
               None (Core.globals Sample.recognizers)))
     = [Shell.PushItems [Sample.actor_output];
        Shell.SetRecord "OUTPUT" Sample.actor_output].
Proof.
  assert (H : snd (Shell.main
                     (Some (Shell.accepting (Sample.actor_input Sample.text)))
                     None (Core.globals Sample.recognizers))
              = Ok (Actor.Finished Sample.actor_output))
    by (vm_compute; reflexivity).
  split; [exact H|].
  exact (run_store_calls _ _ _ _ H).
Defined.

(** X12: the line [Actor finished successfully.] is printed by exactly
    the runs that return with an output record: not after an early
    return, and not when an engine or a store call raised. *)
Theorem success_line_iff_finished
        (client : option Shell.ApifyClient)
        (local_input_json : option (result (option Actor.Input)))
        (g : Globals) :
  In (Shell.Print (Shell.Line "Actor finished successfully."))
     (fst (Shell.main client local_input_json g))
  <-> exists output_data,
      snd (Shell.main client local_input_json g)
      = Ok (Actor.Finished output_data).
Proof.
  rewrite main_stages.
  destruct (Shell.read_input client local_input_json) as [ai|e];
    cbn [fst snd].
  2: { split; [intros [[=]|[]]|intros [? [=]]]. }
  destruct (Actor.main g ai) as [[| |out]|e]; cbn [fst snd].
  1, 2, 4: split; [intros [[=]|[[=]|[]]]|intros [? [=]]].
  unfold Shell.deliver, Shell.io_bind, Shell.call, Shell.tell.
  destruct client as [c|]; cbn [fst snd app].
  - destruct (Shell.push_items c [out]) as [[]|e]; cbn [fst snd app].
    + destruct (Shell.set_record c "OUTPUT" out) as [[]|e];
        cbn [fst snd app].
      * split; [eauto|]. intros _. simpl. tauto.
      * split; [|intros [? [=]]].
        intros [[=]|[[=]|[[=]|[[=]|[]]]]].
    + split; [|intros [? [=]]].
      intros [[=]|[[=]|[[=]|[]]]].
  - split; [eauto|]. intros _. simpl. tauto.
Qed.

(** X13: whatever happens, a run writes nothing to the platform, or one
    well-formed record: it is pushed to the dataset first, and stored
    under [OUTPUT] only after that push; such a record is marked as a
    success and comes from a text that is not empty. *)
Theorem run_writes_one_well_formed_record
        (client : option Shell.ApifyClient)
        (local_input_json : option (result (option Actor.Input)))
        (g : Globals) :
  Shell.store_calls (fst (Shell.main client local_input_json g)) = []
  \/ exists output_data,
      Shell.well_formed output_data
      /\ (Shell.store_calls (fst (Shell.main client local_input_json g))
          = [Shell.PushItems [output_data]]
          \/ Shell.store_calls (fst (Shell.main client local_input_json g))
             = [Shell.PushItems [output_data];
                Shell.SetRecord "OUTPUT" output_data]).
Proof.
  rewrite main_stages.
  destruct (Shell.read_input client local_input_json) as [ai|e];
    cbn [fst snd]; [|left; reflexivity].
  destruct (Actor.main g ai) as [[| |out]|e] eqn:M; cbn [fst snd];
    try (left; reflexivity).
  destruct (main_finished_well_formed _ _ _ M) as [W _].
  unfold Shell.deliver, Shell.io_bind, Shell.call, Shell.tell.
  destruct client as [c|]; cbn [fst snd app]; [|left; reflexivity].
  right. exists out. split; [exact W|].
  destruct (Shell.push_items c [out]) as [[]|e]; cbn [fst snd app];
    [|left; reflexivity].
  destruct (Shell.set_record c "OUTPUT" out) as [[]|e]; cbn [fst snd app];
    right; reflexivity.
Qed.

(** A slice with offsets that are not negative is clipped to the text. *)
Lemma len_slice_clipped (t : str) (a b : Z) :
  0 <= a -> 0 <= b ->
  len (slice t a b) = Z.max 0 (Z.min b (len t) - Z.min a (len t)).
Proof.
  intros Ha Hb. pose proof (len_nonneg t) as Hn.
  unfold slice, slice_index.
  destruct (a <? 0) eqn:A; [lia|]. destruct (b <? 0) eqn:B; [lia|].
  unfold len in *. rewrite length_firstn, length_skipn. lia.
Qed.

(** X14: the entity report does not check offsets against the text.
    Every entity that is handed back, by the endpoint or by the actor,
    with a start and an end that are not negative has a text of the
    clipped end minus the clipped start characters, none when they cross:
    a span that runs past the end of the text is reported clipped.  In
    detection-only mode such offsets cannot make the endpoint fail: once
    the analyzer has answered on a text that is not empty the call
    returns, with one entity per detection under the detection's own
    start and end. *)
Theorem entity_text_is_clipped_to_input (g : Globals) (text : str) :
  (forall n redacted entities,
      answered g text n redacted entities ->
      Forall (fun e =>
                0 <= EntityResult.start e ->
                0 <= EntityResult.end_ e ->
                len (EntityResult.text e)
                = Z.max 0 (Z.min (EntityResult.end_ e) (len text)
                           - Z.min (EntityResult.start e) (len text)))
             entities)
  /\ (forall a request results,
         RedactRequest.text request = text ->
         text <> [] ->
         RedactRequest.anonymize request = false ->
         analyzer g = Some a ->
         analyze a text (RedactRequest.entities request) "en" = Ok results ->
         exists response,
           redact_pii g request = Ok response
           /\ Forall2 (fun res e =>
                         EntityResult.start e = start res
                         /\ EntityResult.end_ e = end_ res)
                      results (RedactResponse.entities_detected response)).
Proof.
  split.
  - intros n redacted entities H.
    destruct (answered_reports _ _ _ _ _ H) as [results Hrep].
    clear H. induction Hrep as [|res e ? ? (_ & Hs & He & _ & Ht) _ IH];
      constructor; [|exact IH].
    intros H0 H1. rewrite Ht, Hs, He in *.
    apply len_slice_clipped; assumption.
  - intros a request results <- Ht F Ha A.
    unfold redact_pii. rewrite Ha, F, A.
    destruct (truthy (RedactRequest.text request)) eqn:T;
      [|apply truthy_false_nil in T; contradiction].
    cbn [negb bind]. eexists. split; [reflexivity|].
    cbn [RedactResponse.entities_detected].
    clear. induction results as [|res results IH]; constructor;
      [split; reflexivity|exact IH].
Qed.

Lemma entity_text_is_clipped_to_input_witness :
  answered Overrun.globals Sample.text 50 Sample.text [Overrun.entity]
  /\ Forall (fun e =>
               0 <= EntityResult.start e ->
               0 <= EntityResult.end_ e ->
               len (EntityResult.text e)
               = Z.max 0 (Z.min (EntityResult.end_ e) (len Sample.text)
                          - Z.min (EntityResult.start e) (len Sample.text)))
            [Overrun.entity]
  /\ exists response,
      redact_pii Overrun.globals Sample.detect_only_request = Ok response
      /\ Forall2 (fun res e =>
                    EntityResult.start e = start res
                    /\ EntityResult.end_ e = end_ res)
                 [mkResult "URL" 4 60 (1 # 2)]
                 (RedactResponse.entities_detected response).
Proof.
  assert (A : answered Overrun.globals Sample.text 50 Sample.text
                       [Overrun.entity]).
  { apply (by_endpoint _ _ Sample.detect_only_request Overrun.response);
      vm_compute; reflexivity. }
  split; [exact A|]. split.
  - exact (proj1 (entity_text_is_clipped_to_input Overrun.globals
                    Sample.text) _ _ _ A).
  - apply (proj2 (entity_text_is_clipped_to_input Overrun.globals
                    Sample.text) Overrun.engine Sample.detect_only_request).
    + reflexivity.
    + vm_compute. discriminate.
    + reflexivity.
    + reflexivity.
    + reflexivity.
Defined.

(** X15: when the platform client could not be created the actor runs
    locally: it makes no store call at all, and a run that finishes has
    printed the JSON dump of its output record. *)
Theorem local_run_prints_instead_of_storing (e : exn)
        (local_input_json : option (result (option Actor.Input)))
        (g : Globals) :
  Shell.store_calls
    (fst (Shell.main (Shell.create_client (Raise e)) local_input_json g))
  = []
  /\ forall output_data,
      snd (Shell.main (Shell.create_client (Raise e)) local_input_json g)
      = Ok (Actor.Finished output_data) ->
      In (Shell.Print (Shell.JsonDumps output_data))
         (fst (Shell.main (Shell.create_client (Raise e))
                          local_input_json g)).
Proof.
  cbn [Shell.create_client]. rewrite main_stages.
  destruct (Shell.read_input None local_input_json) as [ai|e'];
    cbn [fst snd]; [|split; [reflexivity|discriminate]].
  destruct (Actor.main g ai) as [[| |out]|e']; cbn [fst snd];
    try (split; [reflexivity|discriminate]).
  split; [reflexivity|].
  intros output_data [= <-]. simpl. tauto.
Qed.
